(** * Playback synchronisation: the relay (server/server.py) and the
      per-client bridge (client/client.py)

    A shallow embedding of [SyncServer] and [SyncClient].  Python values that
    come out of [json.loads] are the inductive [json]; Python floats are
    IEEE binary64, here the kernel's primitive [float]; Python's unbounded
    integers are [Z].  Code that can raise runs in a small state, output and
    exception monad.  Sockets are connection handles; what is written to a
    socket is recorded as an effect. *)

From Stdlib Require Import ZArith List Bool Ascii String Lia.
From Stdlib Require Import Floats.PrimFloat Floats.SpecFloat Floats.FloatOps.
From stdpp Require Import base strings gmap.

Local Open Scope string_scope.
Local Open Scope list_scope.

(** ** Exceptions of the Python runtime that the modelled code can meet *)

Inductive exn : Type :=
| AttributeError      (* [.get] on a value that is not a dict *)
| KeyError            (* [msg["k"]] on a dict without the key *)
| TypeError           (* arithmetic or [format] on a non-number *)
| ValueError          (* [format(s, ".2f")] on a string *)
| OverflowError       (* an int too large to convert to float *)
| JSONDecodeError     (* [json.loads] on a malformed line *)
| TimeoutError        (* raised by [SyncClient.connect] *)
| FileNotFoundError
| ConnectionRefusedError
| OSError.            (* any other socket error *)

Global Instance exn_eq_dec : EqDecision exn.
Proof. solve_decision. Defined.

(** ** Values decoded by [json.loads] *)

#[local] Set Warnings "-register-all".

Inductive json : Type :=
| JNull
| JBool (b : bool)
| JInt (z : Z)
| JFloat (f : float)
| JStr (s : string)
| JArr (xs : list json)
| JObj (kvs : list (string * json)).

(** A dict is kept as the list of its items in insertion order, each key
    once (as [json.loads] and dict assignment build it). *)
Abbreviation dict := (list (string * json)).

(** [d.get(k)] on the items of a dict: [None] when the key is absent. *)
Fixpoint dict_get (k : string) (d : dict) : option json :=
  match d with
  | [] => None
  | (k', v) :: d' => if String.eqb k k' then Some v else dict_get k d'
  end.

(** [d[k] = v]: an existing key keeps its place, a new key goes last. *)
Fixpoint dict_set (k : string) (v : json) (d : dict) : dict :=
  match d with
  | [] => [(k, v)]
  | (k', v') :: d' =>
      if String.eqb k k' then (k', v) :: d' else (k', v') :: dict_set k v d'
  end.

(** ** Python numbers: [bool] and [int] are exact integers, [float] is binary64 *)

Inductive pynum : Type :=
| NInt (z : Z)
| NFloat (f : float).

Definition as_num (v : json) : option pynum :=
  match v with
  | JBool b => Some (NInt (if b then 1 else 0)%Z)
  | JInt z => Some (NInt z)
  | JFloat f => Some (NFloat f)
  | _ => None
  end.

(** [float(z)] for an int: correctly rounded (to nearest, ties to even),
    [OverflowError] when the rounded value is not finite. *)
Definition int_to_float (z : Z) : exn + float :=
  let f := SF2Prim (binary_normalize prec emax z 0 false) in
  if PrimFloat.is_infinity f then inl OverflowError else inr f.

(** [a - b]. *)
Definition py_sub (a b : pynum) : exn + pynum :=
  match a, b with
  | NInt x, NInt y => inr (NInt (x - y))
  | NInt x, NFloat g =>
      match int_to_float x with
      | inl e => inl e
      | inr f => inr (NFloat (PrimFloat.sub f g))
      end
  | NFloat f, NInt y =>
      match int_to_float y with
      | inl e => inl e
      | inr g => inr (NFloat (PrimFloat.sub f g))
      end
  | NFloat f, NFloat g => inr (NFloat (PrimFloat.sub f g))
  end.

(** [abs(a)]. *)
Definition py_abs (a : pynum) : pynum :=
  match a with
  | NInt x => NInt (Z.abs x)
  | NFloat f => NFloat (PrimFloat.abs f)
  end.

(** The exact order between an int and a float ([None]: the float is a NaN). *)
Definition compare_int_float (x : Z) (f : float) : option comparison :=
  match Prim2SF f with
  | S754_nan => None
  | S754_zero _ => Some (x ?= 0)%Z
  | S754_infinity neg => Some (if neg then Gt else Lt)
  | S754_finite neg m e =>
      let sm := if neg then Z.neg m else Z.pos m in
      Some (if (0 <=? e)%Z then (x ?= sm * 2 ^ e)%Z
            else (x * 2 ^ (- e) ?= sm)%Z)
  end.

(** Python's order on numbers ([None]: unordered, a NaN is involved). *)
Definition py_compare (a b : pynum) : option comparison :=
  match a, b with
  | NInt x, NInt y => Some (x ?= y)%Z
  | NInt x, NFloat g => compare_int_float x g
  | NFloat f, NInt y => option_map CompOpp (compare_int_float y f)
  | NFloat f, NFloat g =>
      match PrimFloat.compare f g with
      | FEq => Some Eq
      | FLt => Some Lt
      | FGt => Some Gt
      | FNotComparable => None
      end
  end.

(** [a > b], [a <= b] and [a == b] on numbers. *)
Definition py_gt (a b : pynum) : bool :=
  match py_compare a b with Some Gt => true | _ => false end.

Definition py_le (a b : pynum) : bool :=
  match py_compare a b with Some Lt | Some Eq => true | _ => false end.

Definition py_num_eq (a b : pynum) : bool :=
  match py_compare a b with Some Eq => true | _ => false end.

(** [format(v, ".2f")]: only its failure matters to the control flow; the
    text goes to the log. *)
Definition format_2f (v : json) : exn + unit :=
  match v with
  | JBool _ => inr tt
  | JInt z => match int_to_float z with inl e => inl e | inr _ => inr tt end
  | JFloat _ => inr tt
  | JStr _ => inl ValueError
  | JNull | JArr _ | JObj _ => inl TypeError
  end.

Definition num_json (n : pynum) : json :=
  match n with NInt z => JInt z | NFloat f => JFloat f end.

(** The one NaN object [json.loads] hands out for the literal [NaN]: inside
    a container Python compares items by identity first. *)
Definition both_nan (a b : json) : bool :=
  match a, b with
  | JFloat f, JFloat g => PrimFloat.is_nan f && PrimFloat.is_nan g
  | _, _ => false
  end.

(** [a == b] on decoded JSON values. *)
Fixpoint py_eq (a b : json) {struct a} : bool :=
  match a, b with
  | JNull, JNull => true
  | JStr s, JStr t => String.eqb s t
  | JArr xs, JArr ys =>
      (fix items (xs ys : list json) {struct xs} : bool :=
         match xs, ys with
         | [], [] => true
         | x :: xs', y :: ys' => (both_nan x y || py_eq x y) && items xs' ys'
         | _, _ => false
         end) xs ys
  | JObj d, JObj d' =>
      Nat.eqb (length d) (length d') &&
      (fix items (kvs : dict) {struct kvs} : bool :=
         match kvs with
         | [] => true
         | (k, v) :: kvs' =>
             match dict_get k d' with
             | Some w => (both_nan v w || py_eq v w) && items kvs'
             | None => false
             end
         end) d
  | JBool x, (JBool _ | JInt _ | JFloat _) =>
      match as_num b with
      | Some n => py_num_eq (NInt (if x then 1 else 0)%Z) n
      | None => false
      end
  | JInt x, (JBool _ | JInt _ | JFloat _) =>
      match as_num b with Some n => py_num_eq (NInt x) n | None => false end
  | JFloat f, (JBool _ | JInt _ | JFloat _) =>
      match as_num b with Some n => py_num_eq (NFloat f) n | None => false end
  | _, _ => false
  end.

(** [a != b]. *)
Definition py_ne (a b : json) : bool := negb (py_eq a b).

(** ** [json.loads] and [json.dumps]

    The codec is the Python library's, not this repository's: the code is
    modelled over any decoder ([None]: [JSONDecodeError]) and encoder. *)

Class Codec : Type := {
  json_loads : string -> option json;
  json_dumps : json -> string
}.

(** ** State, output and exception monad

    A computation reads and writes a state [S], appends outputs [E] and
    either returns or raises; what was written before a raise stays. *)

Definition M (S E A : Type) : Type := S -> S * list E * (exn + A).

Section monad.
Context {S E : Type}.

Definition ret {A} (a : A) : M S E A := fun s => (s, [], inr a).

Definition bind {A B} (m : M S E A) (k : A -> M S E B) : M S E B :=
  fun s =>
    match m s with
    | (s1, o1, inl e) => (s1, o1, inl e)
    | (s1, o1, inr a) =>
        match k a s1 with (s2, o2, r) => (s2, o1 ++ o2, r) end
    end.

Definition raise {A} (e : exn) : M S E A := fun s => (s, [], inl e).

Definition lift {A} (r : exn + A) : M S E A := fun s => (s, [], r).

Definition get : M S E S := fun s => (s, [], inr s).

Definition put (s' : S) : M S E unit := fun _ => (s', [], inr tt).

Definition emit (o : E) : M S E unit := fun s => (s, [o], inr tt).

(** [try: m  finally: f] *)
Definition finally {A} (m : M S E A) (f : M S E unit) : M S E A :=
  fun s =>
    match m s with
    | (s1, o1, r) =>
        match f s1 with
        | (s2, o2, inl e) => (s2, o1 ++ o2, inl e)
        | (s2, o2, inr _) => (s2, o1 ++ o2, r)
        end
    end.

(** [try: m  except Exception as e: h e] *)
Definition try_except (m : M S E unit) (h : exn -> M S E unit) : M S E unit :=
  fun s =>
    match m s with
    | (s1, o1, inl e) =>
        match h e s1 with (s2, o2, r) => (s2, o1 ++ o2, r) end
    | (s1, o1, inr a) => (s1, o1, inr a)
    end.

(** [for x in l: f x] *)
Fixpoint for_each {A} (l : list A) (f : A -> M S E unit) : M S E unit :=
  match l with
  | [] => ret tt
  | x :: l' => bind (f x) (fun _ => for_each l' f)
  end.
End monad.

Global Instance M_ret {S E} : MRet (M S E) := fun A => ret.
Global Instance M_bind {S E} : MBind (M S E) := fun A B k m => bind m k.

(** ** Line framing, shared by the three receive loops

    [buffer += data; while "\n" in buffer: line, buffer = buffer.split("\n", 1)]:
    the complete lines of the buffer in order, and the unterminated rest. *)

Definition newline : ascii := ascii_of_nat 10.

Fixpoint split_lines_from (line : string) (buffer : string) : list string * string :=
  match buffer with
  | EmptyString => ([], line)
  | String c rest =>
      if Ascii.eqb c newline then
        match split_lines_from "" rest with
        | (lines, tail) => (line :: lines, tail)
        end
      else split_lines_from (line +:+ String c "") rest
  end.

Definition split_lines (buffer : string) : list string * string :=
  split_lines_from "" buffer.

(** The characters [str.strip()] removes, among code points below 256. *)
Definition is_space (c : ascii) : bool :=
  let n := nat_of_ascii c in
  (Nat.leb 9 n && Nat.leb n 13) || (Nat.leb 28 n && Nat.leb n 32)
  || Nat.eqb n 133 || Nat.eqb n 160.

(** [not line.strip()] *)
Fixpoint is_blank (line : string) : bool :=
  match line with
  | EmptyString => true
  | String c rest => is_space c && is_blank rest
  end.

(** [msg.get(key)]: [AttributeError] unless [msg] is a dict. *)
Definition msg_get {S E} (msg : json) (key : string) : M S E json :=
  match msg with
  | JObj d => mret (default JNull (dict_get key d))
  | _ => raise AttributeError
  end.

(** [msg[key]]: [KeyError] when a dict lacks the key. *)
Definition msg_index {S E} (msg : json) (key : string) : M S E json :=
  match msg with
  | JObj d =>
      match dict_get key d with
      | Some v => mret v
      | None => raise KeyError
      end
  | _ => raise TypeError
  end.

Section receive_loop.
Context {S E : Type}.

(** The body of [while "\n" in buffer], line by line. *)
Variable on_line : string -> M S E unit.

(** One round of a receive loop on a non-empty [data]: the complete
    lines are handled in order; returns the new [buffer]. *)
Definition on_data (buffer data : string) : M S E string :=
  match split_lines (buffer +:+ data) with
  | (lines, buffer') => for_each lines on_line;; mret buffer'
  end.

(** [while True: data = sock.recv(4096); if not data: break; ...]:
    [chunks] is what [recv] returns, call after call, as text; the empty
    chunk, or the end of the list, is the end of the stream. *)
Fixpoint recv_loop (buffer : string) (chunks : list string) : M S E unit :=
  match chunks with
  | [] => mret tt
  | data :: chunks' =>
      if String.eqb data "" then mret tt
      else buffer' ← on_data buffer data; recv_loop buffer' chunks'
  end.
End receive_loop.

(** * The relay: [SyncServer] (server/server.py) *)

(** A socket of an accepted connection. *)
Abbreviation conn := nat.

Module Server.

Record SyncServer : Type := mkSyncServer {
  time_tolerance : pynum;
  debug : bool;
  clients : gset conn;
  current_pause : json;
  current_time : json
}.

(** [SyncServer.__init__] *)
Definition __init__ (time_tolerance : pynum) (debug : bool) : SyncServer :=
  {| time_tolerance := time_tolerance;
     debug := debug;
     clients := ∅;
     current_pause := JBool false;
     current_time := JFloat 0.0%float |}.

Definition set_current_pause (v : json) (s : SyncServer) : SyncServer :=
  {| time_tolerance := time_tolerance s; debug := debug s;
     clients := clients s; current_pause := v;
     current_time := current_time s |}.

Definition set_current_time (v : json) (s : SyncServer) : SyncServer :=
  {| time_tolerance := time_tolerance s; debug := debug s;
     clients := clients s; current_pause := current_pause s;
     current_time := v |}.

Definition set_clients (cs : gset conn) (s : SyncServer) : SyncServer :=
  {| time_tolerance := time_tolerance s; debug := debug s;
     clients := cs; current_pause := current_pause s;
     current_time := current_time s |}.

(** What the relay prints. *)
Inductive logline : Type :=
| LogConnect (c : conn)
| LogDisconnect (c : conn)
| LogUpdatePause (new_pause : json)
| LogUpdateTime (new_time : json) (drift : pynum)
| LogSkip (drift : pynum)
| LogInvalidJSON (line : string)
| LogSendFailed
| LogException (e : exn).

(** What the relay does to the outside: [client.sendall(raw)] with whether
    it returned ([ok]) or raised, [print], and [conn.close()]. *)
Inductive output : Type :=
| Sendall (client : conn) (raw : string) (ok : bool)
| Print (l : logline)
| Close (c : conn).

Abbreviation Srv := (M SyncServer output).

Section relay.
Context `{Codec}.

(** The network during one call: [net c = false] when a write to [c]
    raises. *)
Variable net : conn -> bool.

(** [self._log(msg)] *)
Definition _log (l : logline) : Srv unit :=
  s ← get; if debug s then emit (Print l) else mret tt.

(** [SyncServer.broadcast_to_others] *)
Definition broadcast_to_others (message : json) (sender_conn : conn) : Srv unit :=
  let raw := json_dumps message +:+ String newline "" in
  s ← get;
  for_each (elements (clients s)) (fun client =>
    if negb (Nat.eqb client sender_conn) then
      if net client then emit (Sendall client raw true)
      else emit (Sendall client raw false);; _log LogSendFailed
    else mret tt).

(** [abs(new_time - self.current_time)] *)
Definition drift_of (new_time cur : json) : exn + pynum :=
  match as_num new_time, as_num cur with
  | Some a, Some b =>
      match py_sub a b with
      | inl e => inl e
      | inr d => inr (py_abs d)
      end
  | _, _ => inl TypeError
  end.

(** [SyncServer._handle_message] *)
Definition _handle_message (msg : json) (sender_conn : conn) : Srv unit :=
  event ← msg_get msg "event";
  if py_eq event (JStr "pause") then
    new_pause ← msg_get msg "paused";
    s ← get;
    if py_ne new_pause (current_pause s) then
      put (set_current_pause new_pause s);;
      _log (LogUpdatePause new_pause);;
      broadcast_to_others msg sender_conn
    else mret tt
  else if py_eq event (JStr "seek") || py_eq event (JStr "time") then
    new_time ← msg_get msg "raw_time";
    match new_time with
    | JNull => mret tt
    | _ =>
        s ← get;
        drift ← lift (drift_of new_time (current_time s));
        if py_gt drift (time_tolerance s) then
          put (set_current_time new_time s);;
          lift (format_2f new_time);;
          lift (format_2f (num_json drift));;
          _log (LogUpdateTime new_time drift);;
          broadcast_to_others msg sender_conn
        else
          lift (format_2f (num_json drift));;
          _log (LogSkip drift)
    end
  else mret tt.

(** The body of [while "\n" in buffer] in [handle_client], for one line. *)
Definition on_line (line : string) (conn : conn) : Srv unit :=
  if is_blank line then mret tt
  else
    match json_loads line with
    | None => _log (LogInvalidJSON line)
    | Some msg => _handle_message msg conn
    end.

(** [SyncServer.handle_client] *)
Definition handle_client (conn : conn) (chunks : list string) : Srv unit :=
  emit (Print (LogConnect conn));;
  (s ← get; put (set_clients ({[conn]} ∪ clients s) s));;
  finally (recv_loop (fun line => on_line line conn) "" chunks)
    (emit (Print (LogDisconnect conn));;
     (s ← get; put (set_clients (clients s ∖ {[conn]}) s));;
     emit (Close conn)).

(** [self._handle_errors(self.handle_client)], the thread's target. *)
Definition _handle_errors (func : Srv unit) : Srv unit :=
  try_except func (fun e => emit (Print (LogException e))).
End relay.

End Server.

(** * The per-client bridge: [SyncClient] (client/client.py) *)

Module Client.

Record SyncClient : Type := mkSyncClient {
  client_id : string;
  debug : bool
}.

(** What the bridge prints in debug mode. *)
Inductive logline : Type :=
| LogMpvPause (value : json)
| LogMpvTime (value : json)
| LogMpvTimeNone
| LogMpvSeek
| LogApplyPause (paused : json)
| LogApplyTime (raw_time : json).

(** What the bridge writes: a line to the player's IPC socket, a line to
    the relay, a line of log.  Writes are taken to succeed. *)
Inductive output : Type :=
| MpvSendall (raw : string)
| ServerSendall (raw : string)
| Print (l : logline).

Abbreviation Cli := (M SyncClient output).

Section bridge.
Context `{Codec}.

(** [self._log(msg)] *)
Definition _log (l : logline) : Cli unit :=
  c ← get; if debug c then emit (Print l) else mret tt.

(** [SyncClient._send_to_mpv] *)
Definition _send_to_mpv (command : list json) : Cli unit :=
  let msg := JObj [("command", JArr command)] in
  emit (MpvSendall (json_dumps msg +:+ String newline "")).

(** [event["source"] = self.client_id], the first line of
    [_send_to_server]. *)
Definition stamp (c : SyncClient) (event : dict) : dict :=
  dict_set "source" (JStr (client_id c)) event.

(** [SyncClient._send_to_server] *)
Definition _send_to_server (event : dict) : Cli unit :=
  c ← get;
  emit (ServerSendall (json_dumps (JObj (stamp c event)) +:+ String newline "")).

(** The body of [while "\n" in buffer] in [_observe_mpv], for one line. *)
Definition observe_line (line : string) : Cli unit :=
  if is_blank line then mret tt
  else
    match json_loads line with
    | None => raise JSONDecodeError
    | Some msg =>
        event ← msg_get msg "event";
        if py_eq event (JStr "property-change") then
          name ← msg_get msg "name";
          value ← msg_get msg "data";
          if py_eq name (JStr "pause") then
            _log (LogMpvPause value);;
            _send_to_server [("event", JStr "pause"); ("paused", value)]
          else if py_eq name (JStr "time-pos") then
            match value with
            | JNull => _log LogMpvTimeNone
            | _ =>
                lift (format_2f value);;
                _log (LogMpvTime value);;
                _send_to_server [("event", JStr "time"); ("raw_time", value)]
            end
          else mret tt
        else if py_eq event (JStr "seek") then _log LogMpvSeek
        else mret tt
    end.

(** [SyncClient._observe_mpv]: the two subscriptions, then the loop. *)
Definition _observe_mpv (chunks : list string) : Cli unit :=
  _send_to_mpv [JStr "observe_property"; JInt 1; JStr "pause"];;
  _send_to_mpv [JStr "observe_property"; JInt 2; JStr "time-pos"];;
  recv_loop observe_line "" chunks.

(** The body of [while "\n" in buffer] in [_listen_server], for one line. *)
Definition listen_line (line : string) : Cli unit :=
  if is_blank line then mret tt
  else
    match json_loads line with
    | None => raise JSONDecodeError
    | Some msg =>
        source ← msg_get msg "source";
        c ← get;
        if py_eq source (JStr (client_id c)) then mret tt
        else
          event ← msg_get msg "event";
          if py_eq event (JStr "pause") then
            paused ← msg_index msg "paused";
            _log (LogApplyPause paused);;
            _send_to_mpv [JStr "set_property"; JStr "pause"; paused]
          else if py_eq event (JStr "seek") || py_eq event (JStr "time") then
            raw_time ← msg_index msg "raw_time";
            lift (format_2f raw_time);;
            _log (LogApplyTime raw_time);;
            _send_to_mpv [JStr "set_property"; JStr "time-pos"; raw_time]
          else mret tt
    end.

(** [SyncClient._listen_server] *)
Definition _listen_server (chunks : list string) : Cli unit :=
  recv_loop listen_line "" chunks.
End bridge.

(** ** [SyncClient.connect]

    The clock counts milliseconds: the deadline of 5 s is 5000 and the
    sleep of 0.1 s between two attempts is 100.  The outside world is the
    list of what each attempt on the player's socket meets, together with
    the reading of [time.time()] taken in the [except] clause, and the
    outcome of the one attempt on the relay's socket. *)

Record attempt : Type := mkAttempt {
  dial : option exn;      (* [None]: [connect] returned *)
  clock : Z               (* [time.time()] after the attempt failed *)
}.

Inductive outcome : Type :=
| Connected               (* [connect] returned *)
| Raised (e : exn)        (* [connect] raised [e] to [main] *)
| Retrying.               (* the loop is still running when the list ends *)

(** [except (FileNotFoundError, ConnectionRefusedError)] *)
Definition retried (e : exn) : bool :=
  match e with
  | FileNotFoundError | ConnectionRefusedError => true
  | _ => false
  end.

(** The [while True] loop on the player's socket; with the outcome, the
    number of [time.sleep(0.1)] it made. *)
Fixpoint dial_mpv (deadline : Z) (attempts : list attempt) : nat * outcome :=
  match attempts with
  | [] => (0, Retrying)
  | a :: attempts' =>
      match dial a with
      | None => (0, Connected)
      | Some e =>
          if retried e then
            if (clock a >? deadline)%Z then (0, Raised TimeoutError)
            else
              match dial_mpv deadline attempts' with
              | (n, r) => (Datatypes.S n, r)
              end
          else (0, Raised e)
      end
  end.

(** [connect], started when the clock reads [now]. *)
Definition connect (now : Z) (attempts : list attempt) (server : option exn)
  : nat * outcome :=
  let deadline := (now + 5000)%Z in
  match dial_mpv deadline attempts with
  | (n, Connected) =>
      match server with
      | None => (n, Connected)
      | Some e => (n, Raised e)
      end
  | (n, r) => (n, r)
  end.

End Client.

(** * The relay's threads

    [SyncServer.start] gives every accepted connection a thread, and each
    thread runs [_handle_message] for the lines of its peer.  A thread
    touches what it shares with the others at four places: the comparison
    reads [current_pause] or [current_time]; the assignment writes it;
    [with self.lock] in [broadcast_to_others] takes the lock and copies
    [clients]; each [sendall] writes to a socket; leaving the [with] block
    releases the lock.  [handle_client] adds and discards its connection
    inside [with self.lock].  A thread's step is one of these; the
    scheduler picks which thread steps next. *)

Module Threads.
Import Server.

Inductive field : Type := Pause | Time.

(** What the comparison of [_handle_message] decides, reading the
    canonical state as it is at that moment. *)
Inductive decision : Type :=
| Skip                                          (* return, nothing assigned *)
| Accept (f : field) (v : json) (fmt : exn + unit)
    (* assign [v]; [fmt]: the log line's formatting, done after the assignment *)
| Crash (e : exn).

Definition decide (s : SyncServer) (msg : json) : decision :=
  match msg with
  | JObj d =>
      let event := default JNull (dict_get "event" d) in
      if py_eq event (JStr "pause") then
        let new_pause := default JNull (dict_get "paused" d) in
        if py_ne new_pause (current_pause s) then Accept Pause new_pause (inr tt)
        else Skip
      else if py_eq event (JStr "seek") || py_eq event (JStr "time") then
        match default JNull (dict_get "raw_time" d) with
        | JNull => Skip
        | new_time =>
            match drift_of new_time (current_time s) with
            | inl e => Crash e
            | inr drift =>
                if py_gt drift (time_tolerance s) then
                  Accept Time new_time
                    (match format_2f new_time with
                     | inl e => inl e
                     | inr _ => format_2f (num_json drift)
                     end)
                else
                  match format_2f (num_json drift) with
                  | inl e => Crash e
                  | inr _ => Skip
                  end
            end
        end
      else Skip
  | _ => Crash AttributeError
  end.

Definition assign (f : field) (v : json) (s : SyncServer) : SyncServer :=
  match f with
  | Pause => set_current_pause v s
  | Time => set_current_time v s
  end.

(** Where a thread stands. *)
Inductive phase : Type :=
| Guard (msg : json) (sender : conn)
    (* in [_handle_message], before the comparison *)
| Write (f : field) (v : json) (fmt : exn + unit) (msg : json) (sender : conn)
    (* the comparison accepted; before the assignment *)
| Acquire (msg : json) (sender : conn)
    (* in [broadcast_to_others], before [with self.lock] *)
| Sending (raw : string) (sender : conn) (todo : list conn)
    (* inside [with self.lock], clients of the copy still to visit *)
| Register (c : conn)
    (* [handle_client], before [with self.lock: self.clients.add(conn)] *)
| Unregister (c : conn)
    (* [handle_client], before [with self.lock: self.clients.discard(conn)] *)
| Finished
| Crashed (e : exn).

Record config : Type := mkConfig {
  srv : SyncServer;
  lock : option nat;                    (* the thread inside [with self.lock] *)
  threads : list phase;
  sent : list (nat * conn * string)     (* the [sendall] calls so far: thread, socket, line *)
}.

Definition after_guard (d : decision) (msg : json) (sender : conn) : phase :=
  match d with
  | Skip => Finished
  | Accept f v fmt => Write f v fmt msg sender
  | Crash e => Crashed e
  end.

Section steps.
Context `{Codec}.

(** The step of thread [i], when it has one ([None]: the thread has
    ended, or waits for the lock). *)
Definition step_thread (i : nat) (cfg : config) : option config :=
  match threads cfg !! i with
  | Some (Guard msg sender) =>
      Some (mkConfig (srv cfg) (lock cfg)
              (<[i := after_guard (decide (srv cfg) msg) msg sender]> (threads cfg))
              (sent cfg))
  | Some (Write f v fmt msg sender) =>
      Some (mkConfig (assign f v (srv cfg)) (lock cfg)
              (<[i := match fmt with
                      | inl e => Crashed e
                      | inr _ => Acquire msg sender
                      end]> (threads cfg))
              (sent cfg))
  | Some (Acquire msg sender) =>
      match lock cfg with
      | Some _ => None
      | None =>
          Some (mkConfig (srv cfg) (Some i)
                  (<[i := Sending (json_dumps msg +:+ String newline "") sender
                            (elements (clients (srv cfg)))]> (threads cfg))
                  (sent cfg))
      end
  | Some (Sending raw sender (client :: todo)) =>
      Some (mkConfig (srv cfg) (lock cfg)
              (<[i := Sending raw sender todo]> (threads cfg))
              (if negb (Nat.eqb client sender)
               then sent cfg ++ [(i, client, raw)] else sent cfg))
  | Some (Sending raw sender []) =>
      Some (mkConfig (srv cfg) None (<[i := Finished]> (threads cfg)) (sent cfg))
  | Some (Register c) =>
      match lock cfg with
      | Some _ => None
      | None =>
          Some (mkConfig (set_clients ({[c]} ∪ clients (srv cfg)) (srv cfg)) None
                  (<[i := Finished]> (threads cfg)) (sent cfg))
      end
  | Some (Unregister c) =>
      match lock cfg with
      | Some _ => None
      | None =>
          Some (mkConfig (set_clients (clients (srv cfg) ∖ {[c]}) (srv cfg)) None
                  (<[i := Finished]> (threads cfg)) (sent cfg))
      end
  | Some Finished | Some (Crashed _) | None => None
  end.

(** The threads step in the order of [schedule]. *)
Fixpoint run (schedule : list nat) (cfg : config) : option config :=
  match schedule with
  | [] => Some cfg
  | i :: schedule' =>
      match step_thread i cfg with
      | Some cfg' => run schedule' cfg'
      | None => None
      end
  end.

Definition reachable (cfg cfg' : config) : Prop :=
  exists schedule, run schedule cfg = Some cfg'.

(** Thread [i] is inside [with self.lock]. *)
Definition in_round (cfg : config) (i : nat) : Prop :=
  exists raw sender todo, threads cfg !! i = Some (Sending raw sender todo).

(** Thread [i] is between the comparison and the end of its broadcast. *)
Definition in_flight (cfg : config) (i : nat) : Prop :=
  match threads cfg !! i with
  | Some (Write _ _ _ _ _) | Some (Acquire _ _) | Some (Sending _ _ _) => True
  | _ => False
  end.

(** The lock is held exactly by the thread that is in its round. *)
Definition lock_inv (cfg : config) : Prop :=
  forall i, lock cfg = Some i <-> in_round cfg i.

(** A round visits clients that are still registered. *)
Definition round_inv (cfg : config) : Prop :=
  forall i raw sender todo,
    threads cfg !! i = Some (Sending raw sender todo) ->
    forall c, c ∈ todo -> c ∈ clients (srv cfg).

(** No thread is inside the lock yet. *)
Definition initial (cfg : config) : Prop :=
  lock cfg = None /\ forall i, ~ in_round cfg i.

(** All threads have ended. *)
Definition quiescent (cfg : config) : bool :=
  forallb (fun p => match p with Finished | Crashed _ => true | _ => false end)
    (threads cfg).

(** Compare, update and broadcast as one critical section: whoever is
    past the comparison holds the lock. *)
Definition handled_under_lock (cfg0 : config) : Prop :=
  forall cfg i, reachable cfg0 cfg -> in_flight cfg i -> lock cfg = Some i.

(** The events of [handlers] one after the other, each handled to its end
    by [_handle_message] before the next starts. *)
Fixpoint serial (net : conn -> bool) (handlers : list (json * conn)) (s : SyncServer)
  : SyncServer * list output :=
  match handlers with
  | [] => (s, [])
  | (msg, sender) :: handlers' =>
      match _handle_message net msg sender s with
      | (s1, o1, _) =>
          match serial net handlers' s1 with
          | (s2, o2) => (s2, o1 ++ o2)
          end
      end
  end.
End steps.

End Threads.

(** * Reading the result of a computation *)

Definition state_of {S E A} (r : S * list E * (exn + A)) : S := r.1.1.
Definition outputs_of {S E A} (r : S * list E * (exn + A)) : list E := r.1.2.
Definition status_of {S E A} (r : S * list E * (exn + A)) : exn + A := r.2.

(** The [sendall] calls among the relay's outputs: socket, line, whether
    the write returned. *)
Fixpoint sends (out : list Server.output) : list (conn * string * bool) :=
  match out with
  | [] => []
  | Server.Sendall c raw ok :: out' => (c, raw, ok) :: sends out'
  | _ :: out' => sends out'
  end.

(** The lines the bridge writes to the player. *)
Fixpoint mpv_lines (out : list Client.output) : list string :=
  match out with
  | [] => []
  | Client.MpvSendall raw :: out' => raw :: mpv_lines out'
  | _ :: out' => mpv_lines out'
  end.

(** The lines the bridge writes to the relay. *)
Fixpoint server_lines (out : list Client.output) : list string :=
  match out with
  | [] => []
  | Client.ServerSendall raw :: out' => raw :: server_lines out'
  | _ :: out' => server_lines out'
  end.

(** The round [broadcast_to_others] makes for [message] from
    [sender_conn] over [clients]: one write per client but the sender. *)
Definition round `{Codec} (net : conn -> bool) (message : json)
    (sender_conn : conn) (clients : list conn) : list (conn * string * bool) :=
  map (fun c => (c, json_dumps message +:+ String newline "", net c))
    (filter (fun c => c <> sender_conn) clients).

(** The writes of a round, as the trace of thread [i] records them. *)
Definition round_trace (i : nat) (raw : string) (sender : conn) (todo : list conn)
  : list (nat * conn * string) :=
  map (fun c => (i, c, raw)) (filter (fun c => c <> sender) todo).

(** The socket a [sendall] call of the round writes to. *)
Definition recipients (l : list (conn * string * bool)) : list conn :=
  map (fun x => x.1.1) l.

(** What [_handle_message] leaves behind: the state, the [sendall] calls,
    and whether it returned or raised. *)
Definition summary (r : Server.SyncServer * list Server.output * (exn + unit))
  : Server.SyncServer * list (conn * string * bool) * (exn + unit) :=
  (state_of r, sends (outputs_of r), status_of r).

(** A line that is the encoding of an event stamped by bridge [c]: its
    [source] is the identity of [c]. *)
Definition stamped `{Codec} (c : Client.SyncClient) (raw : string) : Prop :=
  exists event : dict,
    raw = json_dumps (JObj (Client.stamp c event)) +:+ String newline "" /\
    dict_get "source" (Client.stamp c event) = Some (JStr (Client.client_id c)).

(** ** A stand-in codec and messages for closed examples

    It decodes four fixed lines and encodes a message by its event kind;
    the properties below hold for every codec. *)

Definition pause_msg (paused : bool) (source : string) : dict :=
  [("event", JStr "pause"); ("paused", JBool paused); ("source", JStr source)].

Definition time_msg (kind : string) (raw_time : float) (source : string) : dict :=
  [("event", JStr kind); ("raw_time", JFloat raw_time); ("source", JStr source)].

(** ["s"], with its quotes. *)
Definition quoted (s : string) : string :=
  String (ascii_of_nat 34) s +:+ String (ascii_of_nat 34) "".

(** [{"event": "<kind>", "<key>": <value>, "source": "A"}] *)
Definition event_line (kind key value : string) : string :=
  "{" +:+ quoted "event" +:+ ": " +:+ quoted kind +:+ ", "
      +:+ quoted key +:+ ": " +:+ value +:+ ", "
      +:+ quoted "source" +:+ ": " +:+ quoted "A" +:+ "}".

Definition pause_line : string := event_line "pause" "paused" "true".
Definition time_line : string := event_line "time" "raw_time" "103.5".
Definition seek_line : string := event_line "seek" "raw_time" "103.5".

Definition demo_loads (line : string) : option json :=
  if String.eqb line pause_line then Some (JObj (pause_msg true "A"))
  else if String.eqb line time_line then Some (JObj (time_msg "time" 103.5%float "A"))
  else if String.eqb line seek_line then Some (JObj (time_msg "seek" 103.5%float "A"))
  else if String.eqb line "[]" then Some (JArr [])
  else None.

Definition demo_dumps (v : json) : string :=
  match v with
  | JObj d =>
      match dict_get "event" d with
      | Some (JStr kind) => kind
      | _ => "object"
      end
  | _ => "value"
  end.

Definition demo_codec : Codec :=
  {| json_loads := demo_loads; json_dumps := demo_dumps |}.

(** A player's socket that refuses [n] attempts in a row, the clock
    0.1 s further at each. *)
Definition refusing (n : nat) : list Client.attempt :=
  map (fun i => Client.mkAttempt (Some ConnectionRefusedError) (100 * Z.of_nat i))
    (seq 0 n).

(** The malformed line of the specification's scenario, as it arrives. *)
Definition malformed_chunk : string := "{not json" +:+ String newline "".

(** The relay of the specification's scenario: tolerance 2.5 s, position
    100.0, three peers connected. *)
Definition demo_relay : Server.SyncServer :=
  Server.set_clients {[1; 2; 3]}
    (Server.set_current_time (JFloat 100.0%float)
       (Server.__init__ (NFloat 2.5%float) true)).

(** Two threads of the relay, each about to handle a pause from its
    peer (1 and 2), the group of three playing. *)
Definition race_start : Threads.config :=
  Threads.mkConfig demo_relay None
    [Threads.Guard (JObj (pause_msg true "A")) 1;
     Threads.Guard (JObj (pause_msg true "B")) 2]
    [].

(** Both threads compare before either assigns; then each assigns and
    makes its round. *)
Definition race_schedule : list nat :=
  [0; 1; 0; 1; 0; 0; 0; 0; 0; 1; 1; 1; 1; 1].

(** * More of the code *)

(** ** Lines on the wire *)

(** The text has no line break in it. *)
Fixpoint no_newline (s : string) : bool :=
  match s with
  | EmptyString => true
  | String c rest => negb (Ascii.eqb c newline) && no_newline rest
  end.

(** Each line followed by its line break, in order: what a sender that
    ends every message with ["\n"] puts on the stream. *)
Fixpoint join_lines (lines : list string) : string :=
  match lines with
  | [] => ""
  | line :: lines' => line +:+ String newline (join_lines lines')
  end.


(** The lines the relay prints, among its outputs. *)
Fixpoint prints (out : list Server.output) : list Server.logline :=
  match out with
  | [] => []
  | Server.Print l :: out' => l :: prints out'
  | _ :: out' => prints out'
  end.

(** ** More stand-in codecs for closed examples

    [table_codec table dumps] decodes the lines of [table] and encodes
    with [dumps]. *)
Definition table_codec (table : list (string * json)) (dumps : json -> string)
  : Codec :=
  {| json_loads := fun line => dict_get line table; json_dumps := dumps |}.

(** It encodes the pause of peer "A" as [pause_line], which it decodes. *)
Definition wire_dumps (v : json) : string :=
  match v with
  | JObj [("event", JStr "pause"); ("paused", JBool true); ("source", JStr "A")] =>
      pause_line
  | _ => demo_dumps v
  end.

Definition wire_codec : Codec :=
  table_codec [(pause_line, JObj (pause_msg true "A"))] wire_dumps.

(** What the player says when it is paused, and when it has no position
    yet. *)
Definition mpv_pause_change : dict :=
  [("event", JStr "property-change"); ("id", JInt 1); ("name", JStr "pause");
   ("data", JBool true)].

Definition mpv_time_null : dict :=
  [("event", JStr "property-change"); ("id", JInt 2); ("name", JStr "time-pos");
   ("data", JNull)].

Definition mpv_codec : Codec :=
  table_codec
    [("pause-change", JObj mpv_pause_change); ("time-null", JObj mpv_time_null);
     ("bare-pause", JObj [("event", JStr "pause"); ("source", JStr "A")])]
    demo_dumps.

(** ** Threads that handle one event each *)

(** Every thread about to handle its event, nobody inside the lock,
    nothing written yet. *)
Definition handlers_start (s : Server.SyncServer) (handlers : list (json * conn))
  : Threads.config :=
  Threads.mkConfig s None (map (fun h => Threads.Guard h.1 h.2) handlers) [].

(** Where the thread of the event [h] (message and sender) can stand. *)
Definition phase_of_handler `{Codec} (h : json * conn) (p : Threads.phase) : Prop :=
  match p with
  | Threads.Guard msg sender
  | Threads.Write _ _ _ msg sender
  | Threads.Acquire msg sender => h = (msg, sender)
  | Threads.Sending raw sender _ =>
      h.2 = sender /\ raw = json_dumps h.1 +:+ String newline ""
  | Threads.Register _ | Threads.Unregister _ => False
  | Threads.Finished | Threads.Crashed _ => True
  end.

(** Each thread is somewhere in the handling of its own event, and each
    write so far is of a thread's own event to a registered peer that is not
    the event's sender. *)
Definition handlers_inv `{Codec} (s0 : Server.SyncServer)
    (handlers : list (json * conn)) (cfg : Threads.config) : Prop :=
  Server.clients (Threads.srv cfg) = Server.clients s0 /\
  length (Threads.threads cfg) = length handlers /\
  (forall i h p, handlers !! i = Some h -> Threads.threads cfg !! i = Some p ->
                 phase_of_handler h p) /\
  (forall i c raw, (i, c, raw) ∈ Threads.sent cfg ->
     exists h, handlers !! i = Some h /\ c <> h.2 /\
               raw = json_dumps h.1 +:+ String newline "" /\
               c ∈ Server.clients s0).

(** * The file service: [MkvServer] (server/server.py)

    Text is text of code points below 256, as an HTTP header is. *)

From Stdlib Require Import DecimalString DecimalPos.

Module Mkv.

(** What [_parse_range] and the file can raise. *)
Inductive error : Type :=
| ValueError
| IndexError
| FileNotFoundError
| OSError.

(** [str(z)] for an int. *)
Definition py_str (z : Z) : string := NilZero.string_of_int (Z.to_int z).

(** The white space [int] allows around a number. *)
Definition is_int_space (c : ascii) : bool :=
  let n := nat_of_ascii c in
  (Nat.leb 9 n && Nat.leb n 13) || Nat.eqb n 32 || Nat.eqb n 133 || Nat.eqb n 160.

Fixpoint skip_int_space (s : string) : string :=
  match s with
  | EmptyString => ""
  | String c rest => if is_int_space c then skip_int_space rest else s
  end.

Fixpoint all_int_space (s : string) : bool :=
  match s with
  | EmptyString => true
  | String c rest => is_int_space c && all_int_space rest
  end.

Definition digit_of (c : ascii) : option Z :=
  let n := nat_of_ascii c in
  if Nat.leb 48 n && Nat.leb n 57 then Some (Z.of_nat (n - 48)) else None.

(** The digits of a number, with single underscores between digits: the
    value, the count of digits, and what follows.  [prev_digit]: the
    character before was a digit. *)
Fixpoint digits (acc : Z) (count : nat) (prev_digit : bool) (s : string)
  : option (Z * nat * string) :=
  match s with
  | EmptyString => if prev_digit then Some (acc, count, "") else None
  | String c rest =>
      match digit_of c with
      | Some d => digits (10 * acc + d) (Datatypes.S count) true rest
      | None =>
          if Ascii.eqb c "_" then
            if prev_digit then digits acc count false rest else None
          else if prev_digit then Some (acc, count, s) else None
      end
  end.

(** [sys.get_int_max_str_digits()], as Python sets it. *)
Definition max_str_digits : nat := 4300.

(** [int(s)] *)
Definition py_int (s : string) : error + Z :=
  let s1 := skip_int_space s in
  let signed :=
    match s1 with
    | String c rest =>
        if Ascii.eqb c "-" then (true, rest)
        else if Ascii.eqb c "+" then (false, rest)
        else (false, s1)
    | EmptyString => (false, s1)
    end in
  match digits 0 0 false signed.2 with
  | Some (v, count, rest) =>
      if all_int_space rest && Nat.leb count max_str_digits
      then inr (if signed.1 then - v else v)%Z
      else inl ValueError
  | None => inl ValueError
  end.

(** [s.replace(old, "")] for a non-empty [old]: [skip] characters of an
    occurrence are still to drop. *)
Fixpoint remove_from (old : string) (skip : nat) (s : string) : string :=
  match s with
  | EmptyString => ""
  | String c rest =>
      match skip with
      | Datatypes.S k => remove_from old k rest
      | 0 =>
          if String.prefix old s then remove_from old (String.length old - 1) rest
          else String c (remove_from old 0 rest)
      end
  end.

Definition remove (old s : string) : string := remove_from old 0 s.

(** [s.split(sep)] for a separator of one character. *)
Fixpoint split_from (sep : ascii) (part : string) (s : string) : list string :=
  match s with
  | EmptyString => [part]
  | String c rest =>
      if Ascii.eqb c sep then part :: split_from sep "" rest
      else split_from sep (part +:+ String c "") rest
  end.

Definition split (sep : ascii) (s : string) : list string := split_from sep "" s.

(** [MkvServer._parse_range] *)
Definition _parse_range (range_header : string) (file_size : Z) : error + (Z * Z) :=
  let byte_range := split "-" (remove "bytes=" range_header) in
  match byte_range with
  | [] => inl IndexError
  | first :: others =>
      match py_int first with
      | inl e => inl e
      | inr start =>
          match others with
          | [] => inl IndexError
          | second :: _ =>
              match (if String.eqb second "" then inr (file_size - 1)%Z
                     else py_int second) with
              | inl e => inl e
              | inr end_ =>
                  if (0 <=? start)%Z && (start <=? end_)%Z && (end_ <? file_size)%Z
                  then inr (start, end_)
                  else inl ValueError
              end
          end
      end
  end.

(** The file behind [self.mkv_path] when the request is served. *)
Inductive file : Type :=
| Present (content : list ascii)
| Missing          (* [FileNotFoundError] *)
| Unreadable.      (* any other error of the file system *)

Inductive body : Type :=
| Data (bytes : list ascii)
| Text (s : string)
| ErrorText (e : error).   (* [f"An error occurred: {e}"] *)

(** What [serve_video] answers: a [Response] of its own, or what Flask's
    [send_file] makes of the whole file. *)
Inductive response : Type :=
| Response (b : body) (status : nat) (mimetype : option string)
    (headers : list (string * string))
| SendFile (mimetype : string).

(** [MkvServer.serve_video], on the file and the request's [Range] header
    ([None]: the request has none). *)
Definition serve_video (f : file) (range_header : option string) : response :=
  match f with
  | Missing => Response (Text "File not found") 404 None []
  | Unreadable => Response (ErrorText OSError) 500 None []
  | Present content =>
      let file_size := Z.of_nat (length content) in
      match range_header with
      | None => SendFile "video/x-matroska"
      | Some h =>
          if String.eqb h "" then SendFile "video/x-matroska"
          else
            match _parse_range h file_size with
            | inl FileNotFoundError => Response (Text "File not found") 404 None []
            | inl e => Response (ErrorText e) 500 None []
            | inr (start, end_) =>
                let length := (end_ - start + 1)%Z in
                let data := take (Z.to_nat length) (drop (Z.to_nat start) content) in
                Response (Data data) 206 (Some "video/x-matroska")
                  [("Content-Range",
                    "bytes " +:+ py_str start +:+ "-" +:+ py_str end_
                      +:+ "/" +:+ py_str file_size);
                   ("Content-Length", py_str length)]
            end
      end
  end.

End Mkv.

(** The header [bytes=<first>-<last>]. *)
Definition range_header (first last : Z) : string :=
  "bytes=" +:+ Mkv.py_str first +:+ "-" +:+ Mkv.py_str last.

(** No character of the text is [c]. *)
Fixpoint lacks (c : ascii) (s : string) : bool :=
  match s with
  | EmptyString => true
  | String c' rest => negb (Ascii.eqb c' c) && lacks c rest
  end.

(** The number a run of decimal digits stands for, read from the left
    after [acc]. *)
Fixpoint uint_value (acc : Z) (d : Decimal.uint) : Z :=
  match d with
  | Decimal.Nil => acc
  | Decimal.D0 d' => uint_value (10 * acc + 0) d'
  | Decimal.D1 d' => uint_value (10 * acc + 1) d'
  | Decimal.D2 d' => uint_value (10 * acc + 2) d'
  | Decimal.D3 d' => uint_value (10 * acc + 3) d'
  | Decimal.D4 d' => uint_value (10 * acc + 4) d'
  | Decimal.D5 d' => uint_value (10 * acc + 5) d'
  | Decimal.D6 d' => uint_value (10 * acc + 6) d'
  | Decimal.D7 d' => uint_value (10 * acc + 7) d'
  | Decimal.D8 d' => uint_value (10 * acc + 8) d'
  | Decimal.D9 d' => uint_value (10 * acc + 9) d'
  end.

(** The text stops the digits of a number: it is empty or starts with a
    character that is neither a digit nor an underscore. *)
Definition ends_number (s : string) : bool :=
  match s with
  | EmptyString => true
  | String c _ =>
      match Mkv.digit_of c with
      | Some _ => false
      | None => negb (Ascii.eqb c "_")
      end
  end.

(** * Properties *)

(** ** The monad's equations *)

Ltac unfold_monad :=
  unfold mbind, mret, M_bind, M_ret, bind, ret, get, put, emit, lift, raise,
    msg_get, msg_index in *.

Lemma bind_ok {S E A B} (m : M S E A) (k : A -> M S E B) s s1 o1 a :
  m s = (s1, o1, inr a) ->
  (m ≫= k) s = (state_of (k a s1), o1 ++ outputs_of (k a s1), status_of (k a s1)).
Proof.
  intros Hm. unfold mbind, M_bind, bind. rewrite Hm.
  destruct (k a s1) as [[s2 o2] r]. reflexivity.
Qed.

Lemma bind_raise {S E A B} (m : M S E A) (k : A -> M S E B) s s1 o1 e :
  m s = (s1, o1, inl e) -> (m ≫= k) s = (s1, o1, inl e).
Proof. intros Hm. unfold mbind, M_bind, bind. rewrite Hm. reflexivity. Qed.

Lemma sends_app out1 out2 : sends (out1 ++ out2) = sends out1 ++ sends out2.
Proof.
  induction out1 as [|o out1 IH]; [reflexivity|].
  destruct o; simpl; rewrite IH; reflexivity.
Qed.

(** ** [broadcast_to_others] *)

Section relay_facts.
Context `{Codec}.
Variable net : conn -> bool.

Lemma log_sends l s :
  state_of (Server._log l s) = s /\
  sends (outputs_of (Server._log l s)) = [] /\
  status_of (Server._log l s) = inr tt.
Proof.
  unfold Server._log. unfold_monad. simpl. destruct (Server.debug s); auto.
Qed.

Lemma broadcast_loop message sender_conn s (cs : list conn) :
  let body := fun client : conn =>
    if negb (Nat.eqb client sender_conn) then
      if net client
      then emit (Server.Sendall client (json_dumps message +:+ String newline "") true)
      else emit (Server.Sendall client (json_dumps message +:+ String newline "") false);;
           Server._log Server.LogSendFailed
    else mret tt in
  exists out,
    for_each cs body s = (s, out, inr tt) /\
    sends out = round net message sender_conn cs.
Proof.
  intros body. induction cs as [|c cs [out [Hrun Hout]]].
  - exists []. split; reflexivity.
  - simpl for_each. unfold round. rewrite filter_cons.
    destruct (decide (c <> sender_conn)) as [Hne|Heq].
    + assert (Hb : negb (Nat.eqb c sender_conn) = true).
      { apply negb_true_iff, Nat.eqb_neq. exact Hne. }
      destruct (net c) eqn:Hnet.
      * exists (Server.Sendall c (json_dumps message +:+ String newline "") true :: out).
        unfold bind, body at 1. rewrite Hb, Hnet. unfold emit.
        rewrite Hrun. simpl. rewrite Hout, Hnet. split; reflexivity.
      * destruct (log_sends Server.LogSendFailed s) as (Hs & Ho & Hr).
        destruct (Server._log Server.LogSendFailed s) as [[s1 o1] r1] eqn:Hlog.
        unfold state_of, outputs_of, status_of in Hs, Ho, Hr. simpl in Hs, Ho, Hr.
        subst s1 r1.
        exists ((Server.Sendall c (json_dumps message +:+ String newline "") false :: o1) ++ out).
        unfold bind, body at 1. rewrite Hb, Hnet.
        unfold mbind, M_bind, bind, emit. rewrite Hlog. simpl. rewrite Hrun.
        split; [reflexivity|].
        simpl. rewrite sends_app, Ho, Hout, Hnet. reflexivity.
    + assert (Hb : negb (Nat.eqb c sender_conn) = false).
      { apply negb_false_iff, Nat.eqb_eq. destruct (decide (c = sender_conn)); tauto. }
      exists out. unfold bind, body at 1. rewrite Hb.
      unfold mret, M_ret, ret. rewrite Hrun. split; [reflexivity|exact Hout].
Qed.

Lemma broadcast_spec message sender_conn s :
  exists out,
    Server.broadcast_to_others net message sender_conn s = (s, out, inr tt) /\
    sends out = round net message sender_conn (elements (Server.clients s)).
Proof.
  destruct (broadcast_loop message sender_conn s (elements (Server.clients s)))
    as [out [Hrun Hout]].
  exists out. split; [|exact Hout].
  unfold Server.broadcast_to_others.
  rewrite (bind_ok _ _ s s [] s) by reflexivity.
  cbv zeta in Hrun. rewrite Hrun. reflexivity.
Qed.
End relay_facts.

(** ** [_handle_message] against the decision it takes *)

Section handle_facts.
Context `{Codec}.
Variable net : conn -> bool.

Ltac use_log :=
  match goal with
  | |- context [Server._log ?l ?s] =>
      let s1 := fresh "s" in
      let o1 := fresh "o" in
      let r1 := fresh "r" in
      let Hs := fresh "Hs" in
      let Ho := fresh "Ho" in
      let Hr := fresh "Hr" in
      destruct (log_sends l s) as (Hs & Ho & Hr);
      destruct (Server._log l s) as [[s1 o1] r1];
      unfold state_of, outputs_of, status_of in Hs, Ho, Hr;
      simpl in Hs, Ho, Hr; subst s1 r1
  end.

Ltac use_broadcast :=
  match goal with
  | |- context [Server.broadcast_to_others ?n ?m ?c ?s] =>
      let out := fresh "out" in
      let Hrun := fresh "Hrun" in
      let Hout := fresh "Hout" in
      destruct (broadcast_spec n m c s) as (out & Hrun & Hout);
      rewrite Hrun
  end.

(** Run alone, [_handle_message] does what its comparison decides: it
    returns untouched, or raises, or assigns and makes one round. *)
Lemma handle_decide msg sender s :
  summary (Server._handle_message net msg sender s) =
  match Threads.decide s msg with
  | Threads.Skip => (s, [], inr tt)
  | Threads.Crash e => (s, [], inl e)
  | Threads.Accept f v (inl e) => (Threads.assign f v s, [], inl e)
  | Threads.Accept f v (inr _) =>
      (Threads.assign f v s,
       round net msg sender (elements (Server.clients s)), inr tt)
  end.
Proof.
  unfold Server._handle_message, Threads.decide.
  destruct msg as [| | | | | |d]; try reflexivity.
  unfold msg_get.
  unfold mbind, mret, M_bind, M_ret, bind, ret, get, put, lift. simpl.
  destruct (py_eq (default JNull (dict_get "event" d)) (JStr "pause")).
  - destruct (py_ne _ _); [|reflexivity].
    use_log. use_broadcast. unfold summary, state_of, outputs_of, status_of. simpl.
    rewrite sends_app, Ho, Hout. reflexivity.
  - destruct (py_eq _ (JStr "seek") || py_eq _ (JStr "time")); [|reflexivity].
    destruct (default JNull (dict_get "raw_time" d)) eqn:Hv; try reflexivity.
    all: destruct (Server.drift_of _ (Server.current_time s)) as [e|drift]; [reflexivity|].
    all: destruct (py_gt drift (Server.time_tolerance s)).
    all: simpl.
    all: repeat match goal with
           | |- context [match format_2f ?v with _ => _ end] =>
               destruct (format_2f v) as [?|[]]
           | |- context [match int_to_float ?z with _ => _ end] =>
               destruct (int_to_float z)
           end; try reflexivity.
    all: use_log; try use_broadcast;
      unfold summary, state_of, outputs_of, status_of; simpl;
      rewrite ?sends_app, ?Ho, ?Hout; reflexivity.
Qed.

Lemma summary_inv r s l st :
  summary r = (s, l, st) ->
  state_of r = s /\ sends (outputs_of r) = l /\ status_of r = st.
Proof. unfold summary. intros [= -> -> ->]. auto. Qed.
End handle_facts.

(** ** One round of writes *)

Section round_facts.
Context `{Codec}.

Lemma recipients_round net message sender_conn cs :
  recipients (round net message sender_conn cs) =
  filter (fun c => c <> sender_conn) cs.
Proof.
  unfold recipients, round. rewrite map_map. simpl. apply map_id.
Qed.

(** Every registered peer but the sender is written to, once. *)
Lemma round_exactly_once net message sender_conn (cs : gset conn) :
  NoDup (recipients (round net message sender_conn (elements cs))) /\
  forall c, c ∈ recipients (round net message sender_conn (elements cs)) <->
            c ∈ cs /\ c <> sender_conn.
Proof.
  rewrite recipients_round. split.
  - apply NoDup_filter, NoDup_elements.
  - intros c. rewrite list_elem_of_filter, elem_of_elements. tauto.
Qed.

Lemma round_lines net message sender_conn cs :
  Forall (fun x => x.1.2 = json_dumps message +:+ String newline "")
    (round net message sender_conn cs).
Proof.
  unfold round. apply Forall_forall. intros x Hx.
  apply list_elem_of_fmap in Hx as (c & -> & _). reflexivity.
Qed.

Lemma round_not_sender net message sender_conn cs :
  sender_conn ∉ recipients (round net message sender_conn cs).
Proof.
  rewrite recipients_round, list_elem_of_filter. tauto.
Qed.
End round_facts.

(** ** Comparisons *)

Lemma py_le_not_gt a b : py_le a b = true -> py_gt a b = false.
Proof. unfold py_le, py_gt. destruct (py_compare a b) as [[]|]; congruence. Qed.

Lemma py_ne_bool (b c : bool) : py_ne (JBool b) (JBool c) = xorb b c.
Proof. destruct b, c; reflexivity. Qed.

Lemma dict_get_default key d v :
  dict_get key d = Some v -> default JNull (dict_get key d) = v.
Proof. intros ->. reflexivity. Qed.

(** ** What the comparison decides for well-formed events *)

Lemma decide_pause s d paused :
  dict_get "event" d = Some (JStr "pause") ->
  dict_get "paused" d = Some paused ->
  Threads.decide s (JObj d) =
  if py_ne paused (Server.current_pause s)
  then Threads.Accept Threads.Pause paused (inr tt)
  else Threads.Skip.
Proof.
  intros He Hp. unfold Threads.decide. rewrite He, Hp. reflexivity.
Qed.

Lemma decide_time s d kind (v P : float) :
  dict_get "event" d = Some (JStr kind) ->
  kind = "seek" \/ kind = "time" ->
  dict_get "raw_time" d = Some (JFloat v) ->
  Server.current_time s = JFloat P ->
  Threads.decide s (JObj d) =
  if py_gt (NFloat (PrimFloat.abs (PrimFloat.sub v P))) (Server.time_tolerance s)
  then Threads.Accept Threads.Time (JFloat v) (inr tt)
  else Threads.Skip.
Proof.
  intros He Hk Hv HP. unfold Threads.decide. rewrite He, Hv, HP.
  destruct Hk as [-> | ->]; simpl;
    destruct (py_gt _ (Server.time_tolerance s)); reflexivity.
Qed.

(** ** The relay's acceptance rules *)

(** C1.  A time event with value [v], met in a state with tolerance [T]
    and position [P]: when [|v - P| <= T] nothing is written to any peer and
    the state stays as it was; when [|v - P| > T] the position becomes [v]
    and the event's line is written once to each registered peer but the
    sender, and to nobody else. *)
Theorem time_update_drift_rule `{Codec} (net : conn -> bool)
    (s : Server.SyncServer) (d : dict) (sender : conn) (v P : float) :
  dict_get "event" d = Some (JStr "time") ->
  dict_get "raw_time" d = Some (JFloat v) ->
  Server.current_time s = JFloat P ->
  let T := Server.time_tolerance s in
  let drift := NFloat (PrimFloat.abs (PrimFloat.sub v P)) in
  let r := Server._handle_message net (JObj d) sender s in
  (py_le drift T = true ->
     state_of r = s /\ sends (outputs_of r) = [] /\ status_of r = inr tt) /\
  (py_gt drift T = true ->
     state_of r = Server.set_current_time (JFloat v) s /\
     status_of r = inr tt /\
     sends (outputs_of r) = round net (JObj d) sender (elements (Server.clients s)) /\
     NoDup (recipients (sends (outputs_of r))) /\
     (forall c, c ∈ recipients (sends (outputs_of r)) <->
                c ∈ Server.clients s /\ c <> sender) /\
     Forall (fun x => x.1.2 = json_dumps (JObj d) +:+ String newline "")
       (sends (outputs_of r))).
Proof.
  intros He Hv HP T drift r.
  pose proof (handle_decide net (JObj d) sender s) as Hd.
  rewrite (decide_time s d "time" v P He (or_intror eq_refl) Hv HP) in Hd.
  fold T drift r in Hd. split.
  - intros Hle. rewrite (py_le_not_gt _ _ Hle) in Hd.
    apply summary_inv in Hd. exact Hd.
  - intros Hgt. rewrite Hgt in Hd. apply summary_inv in Hd.
    destruct Hd as (Hs & Ho & Hr). rewrite Ho.
    destruct (round_exactly_once net (JObj d) sender (Server.clients s)) as [Hnd Hin].
    split; [exact Hs|]. split; [exact Hr|]. split; [reflexivity|].
    split; [exact Hnd|]. split; [exact Hin|]. apply round_lines.
Qed.

(** The specification's scenario: tolerance 2.5 s, position 100.0; the
    value 103.5 from peer 1 is written to peers 2 and 3 and becomes the
    position, the value 101.0 is dropped. *)
Lemma time_update_drift_rule_witness :
  let r := @Server._handle_message demo_codec (fun _ => true)
             (JObj (time_msg "time" 103.5%float "A")) 1 demo_relay in
  let r' := @Server._handle_message demo_codec (fun _ => true)
              (JObj (time_msg "time" 101.0%float "A")) 1 demo_relay in
  (state_of r = Server.set_current_time (JFloat 103.5%float) demo_relay /\
   forall c, c ∈ recipients (sends (outputs_of r)) <-> c ∈ ({[1; 2; 3]} : gset conn) /\ c <> 1) /\
  (state_of r' = demo_relay /\ sends (outputs_of r') = []).
Proof.
  split.
  - destruct (@time_update_drift_rule demo_codec (fun _ => true) demo_relay
                (time_msg "time" 103.5%float "A") 1 103.5%float 100.0%float
                eq_refl eq_refl eq_refl) as [_ Hgt].
    destruct (Hgt eq_refl) as (Hs & _ & _ & _ & Hin & _).
    split; [exact Hs | exact Hin].
  - destruct (@time_update_drift_rule demo_codec (fun _ => true) demo_relay
                (time_msg "time" 101.0%float "A") 1 101.0%float 100.0%float
                eq_refl eq_refl eq_refl) as [Hle _].
    destruct (Hle eq_refl) as (Hs & Ho & _).
    split; [exact Hs | exact Ho].
Defined.

(** C2.  A pause event is accepted exactly when its value differs from
    the canonical one: then the canonical value becomes the event's and the
    event's line is written to each registered peer but the sender; an event
    with the canonical value changes nothing and is written to nobody.  After
    either, further pause events with the same value, from any peer, change
    nothing and are written to nobody. *)
Theorem pause_accepted_iff_differs `{Codec} (net : conn -> bool)
    (s : Server.SyncServer) (d : dict) (sender : conn) (paused cur : bool) :
  dict_get "event" d = Some (JStr "pause") ->
  dict_get "paused" d = Some (JBool paused) ->
  Server.current_pause s = JBool cur ->
  let r := Server._handle_message net (JObj d) sender s in
  status_of r = inr tt /\
  (paused <> cur ->
     state_of r = Server.set_current_pause (JBool paused) s /\
     sends (outputs_of r) = round net (JObj d) sender (elements (Server.clients s)) /\
     (forall c, c ∈ recipients (sends (outputs_of r)) <->
                c ∈ Server.clients s /\ c <> sender)) /\
  (paused = cur -> state_of r = s /\ sends (outputs_of r) = []) /\
  (forall net' d' sender',
     dict_get "event" d' = Some (JStr "pause") ->
     dict_get "paused" d' = Some (JBool paused) ->
     let r' := Server._handle_message net' (JObj d') sender' (state_of r) in
     state_of r' = state_of r /\ sends (outputs_of r') = [] /\
     status_of r' = inr tt).
Proof.
  intros He Hp Hc r.
  pose proof (handle_decide net (JObj d) sender s) as Hd.
  rewrite (decide_pause s d _ He Hp), Hc, py_ne_bool in Hd. fold r in Hd.
  assert (Hcases :
    (paused <> cur /\
     summary r = (Server.set_current_pause (JBool paused) s,
                  round net (JObj d) sender (elements (Server.clients s)), inr tt)) \/
    (paused = cur /\ summary r = (s, [], inr tt))).
  { destruct paused, cur; simpl in Hd; [right|left|left|right];
      (split; [congruence | exact Hd]). }
  assert (Hafter : Server.current_pause (state_of r) = JBool paused).
  { destruct Hcases as [[_ Hr] | [-> Hr]]; apply summary_inv in Hr;
      destruct Hr as (-> & _ & _); [reflexivity | exact Hc]. }
  split; [|split; [|split]].
  - destruct Hcases as [[_ Hr] | [_ Hr]]; apply summary_inv in Hr; tauto.
  - intros Hne. destruct Hcases as [[_ Hr] | [Heq _]]; [|contradiction].
    apply summary_inv in Hr. destruct Hr as (Hs & Ho & _).
    split; [exact Hs|]. split; [exact Ho|]. rewrite Ho.
    apply (round_exactly_once net (JObj d) sender (Server.clients s)).
  - intros Heq. destruct Hcases as [[Hne _] | [_ Hr]]; [contradiction|].
    apply summary_inv in Hr. tauto.
  - intros net' d' sender' He' Hp' r'.
    pose proof (handle_decide net' (JObj d') sender' (state_of r)) as Hd'.
    rewrite (decide_pause _ d' _ He' Hp'), Hafter, py_ne_bool, xorb_nilpotent in Hd'.
    apply summary_inv in Hd'. exact Hd'.
Qed.

(** Peer 1 pauses a playing group of three: peers 2 and 3 are told, and
    the same event sent again is written to nobody. *)
Lemma pause_accepted_iff_differs_witness :
  let r := @Server._handle_message demo_codec (fun _ => true)
             (JObj (pause_msg true "A")) 1 demo_relay in
  Server.current_pause (state_of r) = JBool true /\
  (forall c, c ∈ recipients (sends (outputs_of r)) <-> c ∈ ({[1; 2; 3]} : gset conn) /\ c <> 1) /\
  sends (outputs_of (@Server._handle_message demo_codec (fun _ => true)
                       (JObj (pause_msg true "A")) 1 (state_of r))) = [].
Proof.
  destruct (@pause_accepted_iff_differs demo_codec (fun _ => true) demo_relay
              (pause_msg true "A") 1 true false eq_refl eq_refl eq_refl)
    as (_ & Hne & _ & Hagain).
  destruct (Hne ltac:(discriminate)) as (Hs & _ & Hin).
  split; [rewrite Hs; reflexivity|]. split; [exact Hin|].
  destruct (Hagain (fun _ => true) (pause_msg true "A") 1 eq_refl eq_refl)
    as (_ & Ho & _).
  exact Ho.
Defined.

(** C9.  A relay starts playing at position 0.0 with no peer; whoever has
    connected since, the first pause event that says "not paused" and the
    first time event within the tolerance of 0.0 change nothing and are
    written to nobody. *)
Theorem initial_state_suppresses `{Codec} (net : conn -> bool)
    (T : pynum) (dbg : bool) :
  let s0 := Server.__init__ T dbg in
  Server.current_pause s0 = JBool false /\
  Server.current_time s0 = JFloat 0.0%float /\
  Server.clients s0 = ∅ /\
  Server.time_tolerance s0 = T /\
  (forall (cs : gset conn) d sender,
     dict_get "event" d = Some (JStr "pause") ->
     dict_get "paused" d = Some (JBool false) ->
     summary (Server._handle_message net (JObj d) sender (Server.set_clients cs s0))
     = (Server.set_clients cs s0, [], inr tt)) /\
  (forall (cs : gset conn) d sender (v : float),
     dict_get "event" d = Some (JStr "time") ->
     dict_get "raw_time" d = Some (JFloat v) ->
     py_le (NFloat (PrimFloat.abs (PrimFloat.sub v 0.0%float))) T = true ->
     summary (Server._handle_message net (JObj d) sender (Server.set_clients cs s0))
     = (Server.set_clients cs s0, [], inr tt)).
Proof.
  intros s0. repeat (split; [reflexivity|]). split.
  - intros cs d sender He Hp.
    rewrite handle_decide, (decide_pause _ d _ He Hp). reflexivity.
  - intros cs d sender v He Hv Hle.
    rewrite handle_decide,
      (decide_time (Server.set_clients cs s0) d "time" v 0.0%float
         He (or_intror eq_refl) Hv eq_refl).
    simpl Server.time_tolerance. rewrite (py_le_not_gt _ _ Hle). reflexivity.
Qed.

(** A fresh relay with tolerance 2.5 s and one peer connected drops
    "not paused" and the position 1.5. *)
Lemma initial_state_suppresses_witness :
  let s1 := Server.set_clients {[1; 2]} (Server.__init__ (NFloat 2.5%float) false) in
  summary (@Server._handle_message demo_codec (fun _ => true)
             (JObj (pause_msg false "A")) 1 s1) = (s1, [], inr tt) /\
  summary (@Server._handle_message demo_codec (fun _ => true)
             (JObj (time_msg "time" 1.5%float "A")) 1 s1) = (s1, [], inr tt).
Proof.
  destruct (@initial_state_suppresses demo_codec (fun _ => true)
              (NFloat 2.5%float) false) as (_ & _ & _ & _ & Hp & Ht).
  split.
  - exact (Hp {[1; 2]} (pause_msg false "A") 1 eq_refl eq_refl).
  - exact (Ht {[1; 2]} (time_msg "time" 1.5%float "A") 1 1.5%float
             eq_refl eq_refl eq_refl).
Defined.

(** ** The set of registered peers changes only in [handle_client] *)

Section peers_facts.
Context `{Codec}.
Variable net : conn -> bool.

Lemma handle_message_clients msg sender s :
  Server.clients (state_of (Server._handle_message net msg sender s)) =
  Server.clients s.
Proof.
  pose proof (handle_decide net msg sender s) as Hd.
  destruct (Threads.decide s msg) as [|f v [e|[]]|e];
    apply summary_inv in Hd; destruct Hd as (-> & _ & _);
    try reflexivity; destruct f; reflexivity.
Qed.

Lemma on_line_clients line c s :
  Server.clients (state_of (Server.on_line net line c s)) = Server.clients s.
Proof.
  unfold Server.on_line. destruct (is_blank line); [reflexivity|].
  destruct (json_loads line) as [msg|].
  - apply handle_message_clients.
  - destruct (log_sends (Server.LogInvalidJSON line) s) as (-> & _ & _).
    reflexivity.
Qed.

Lemma for_each_clients {A} (f : A -> Server.Srv unit) (l : list A) :
  (forall x s, Server.clients (state_of (f x s)) = Server.clients s) ->
  forall s, Server.clients (state_of (for_each l f s)) = Server.clients s.
Proof.
  intros Hf. induction l as [|x l IH]; intros s; [reflexivity|].
  simpl. unfold bind. specialize (Hf x s).
  destruct (f x s) as [[s1 o1] [e|[]]]; unfold state_of in *; simpl in *;
    [exact Hf|].
  specialize (IH s1). destruct (for_each l f s1) as [[s2 o2] r2].
  simpl in *. congruence.
Qed.

Lemma recv_loop_clients c chunks : forall buffer s,
  Server.clients
    (state_of (recv_loop (fun line => Server.on_line net line c) buffer chunks s)) =
  Server.clients s.
Proof.
  induction chunks as [|data chunks IH]; intros buffer s; [reflexivity|].
  simpl. destruct (String.eqb data ""); [reflexivity|].
  unfold mbind, M_bind, bind, on_data.
  destruct (split_lines (buffer +:+ data)) as [lines buffer'].
  pose proof (for_each_clients (fun line => Server.on_line net line c) lines
                (fun x s => on_line_clients x c s) s) as Hl.
  unfold mbind, M_bind, bind.
  destruct (for_each lines _ s) as [[s1 o1] [e|[]]];
    unfold state_of in *; simpl in *; [exact Hl|].
  specialize (IH buffer' s1).
  destruct (recv_loop _ buffer' chunks s1) as [[s2 o2] r2].
  simpl in *. congruence.
Qed.

(** However its stream ends, [handle_client] leaves with its connection
    deregistered and closed, and the other peers as they were. *)
Lemma handle_client_deregisters c chunks s :
  Server.clients (state_of (Server.handle_client net c chunks s)) =
  Server.clients s ∖ {[c]} /\
  Server.Close c ∈ outputs_of (Server.handle_client net c chunks s).
Proof.
  unfold Server.handle_client.
  unfold mbind, M_bind, bind, emit, get, put, finally. simpl.
  pose proof (recv_loop_clients c chunks ""
                (Server.set_clients ({[c]} ∪ Server.clients s) s)) as Hl.
  destruct (recv_loop _ "" chunks _) as [[s1 o1] r1].
  unfold state_of, outputs_of in *. simpl in *. rewrite Hl. split.
  - apply set_eq. intros x.
    rewrite !elem_of_difference, elem_of_union, elem_of_singleton. tauto.
  - rewrite !list_elem_of_In. simpl. right. apply in_or_app. right.
    simpl. auto.
Qed.
End peers_facts.

(** C6.  In one round of [broadcast_to_others] every registered peer but
    the sender is written to, whichever of the writes fail: the round never
    raises, a peer whose write succeeds gets the line, and the set of
    registered peers is as before, the failing peer still in it.  Handling
    a message never changes the set; a peer leaves it when its own
    [handle_client] ends, however it ends. *)
Theorem broadcast_survives_write_failure `{Codec} (net : conn -> bool)
    (message : json) (sender_conn : conn) (s : Server.SyncServer) :
  let r := Server.broadcast_to_others net message sender_conn s in
  state_of r = s /\
  status_of r = inr tt /\
  sends (outputs_of r) = round net message sender_conn (elements (Server.clients s)) /\
  (forall c, c ∈ Server.clients s -> c <> sender_conn ->
     (c, json_dumps message +:+ String newline "", net c) ∈ sends (outputs_of r)) /\
  recipients (sends (outputs_of r)) =
  recipients (sends (outputs_of
     (Server.broadcast_to_others (fun _ => true) message sender_conn s))) /\
  (forall msg sender s',
     Server.clients (state_of (Server._handle_message net msg sender s')) =
     Server.clients s') /\
  (forall c chunks s',
     c ∉ Server.clients (state_of (Server.handle_client net c chunks s'))).
Proof.
  intros r. subst r.
  assert (Hdereg : forall c chunks s',
    c ∉ Server.clients (state_of (Server.handle_client net c chunks s'))).
  { intros c chunks s'.
    destruct (handle_client_deregisters net c chunks s') as [-> _].
    rewrite elem_of_difference, elem_of_singleton. tauto. }
  destruct (broadcast_spec net message sender_conn s) as (out & Hrun & Hout).
  destruct (broadcast_spec (fun _ => true) message sender_conn s) as (out' & Hrun' & Hout').
  rewrite Hrun, Hrun'. unfold state_of, status_of, outputs_of. simpl.
  rewrite Hout, Hout'.
  split; [reflexivity|]. split; [reflexivity|]. split; [reflexivity|].
  split; [|split; [|split]].
  - intros c Hc Hne. unfold round. apply list_elem_of_fmap.
    exists c. split; [reflexivity|].
    apply list_elem_of_filter. split; [exact Hne|]. apply elem_of_elements, Hc.
  - rewrite !recipients_round. reflexivity.
  - intros msg sender s'. apply handle_message_clients.
  - exact Hdereg.
Qed.

(** Three peers, the write to peer 2 fails: peer 3 still gets the line. *)
Example broadcast_with_failing_peer :
  sends (outputs_of (@Server.broadcast_to_others demo_codec
                       (fun c => negb (Nat.eqb c 2))
                       (JObj (pause_msg true "A")) 1 demo_relay)) =
  [(2, "pause" +:+ String newline "", false);
   (3, "pause" +:+ String newline "", true)].
Proof. vm_compute. reflexivity. Qed.



(** ** The bridge *)

Lemma dict_get_set key v d : dict_get key (dict_set key v d) = Some v.
Proof.
  induction d as [|[k w] d IH]; simpl.
  - rewrite String.eqb_refl. reflexivity.
  - destruct (String.eqb key k) eqn:Hk; simpl; rewrite Hk; auto.
Qed.

Lemma mpv_lines_app o1 o2 : mpv_lines (o1 ++ o2) = mpv_lines o1 ++ mpv_lines o2.
Proof.
  induction o1 as [|o o1 IH]; [reflexivity|].
  destruct o; simpl; rewrite IH; reflexivity.
Qed.

Lemma server_lines_app o1 o2 :
  server_lines (o1 ++ o2) = server_lines o1 ++ server_lines o2.
Proof.
  induction o1 as [|o o1 IH]; [reflexivity|].
  destruct o; simpl; rewrite IH; reflexivity.
Qed.

Section bridge_facts.
Context `{Codec}.

Lemma client_log l c :
  exists out,
    Client._log l c = (c, out, inr tt) /\
    mpv_lines out = [] /\ server_lines out = [].
Proof.
  unfold Client._log. unfold_monad. simpl.
  destruct (Client.debug c); eexists; repeat split; reflexivity.
Qed.

Lemma send_to_server_spec event c :
  Client._send_to_server event c =
  (c, [Client.ServerSendall
         (json_dumps (JObj (Client.stamp c event)) +:+ String newline "")],
   inr tt).
Proof. reflexivity. Qed.

Lemma stamped_stamp c event :
  stamped c (json_dumps (JObj (Client.stamp c event)) +:+ String newline "").
Proof. exists event. split; [reflexivity | apply dict_get_set]. Qed.

Ltac use_client_log :=
  match goal with
  | |- context [Client._log ?l ?c] =>
      let out := fresh "out" in
      let Hlog := fresh "Hlog" in
      let Hm := fresh "Hm" in
      let Hsv := fresh "Hsv" in
      destruct (client_log l c) as (out & Hlog & Hm & Hsv); rewrite Hlog
  end.

(** Whatever [observe_line] writes to the relay is stamped, and it
    leaves the bridge as it was. *)
Lemma observe_line_stamped line c :
  state_of (Client.observe_line line c) = c /\
  Forall (stamped c) (server_lines (outputs_of (Client.observe_line line c))).
Proof.
  unfold Client.observe_line.
  destruct (is_blank line); [split; [reflexivity | constructor]|].
  destruct (json_loads line) as [msg|]; [|split; [reflexivity | constructor]].
  destruct msg as [| | | | | |d]; try (split; [reflexivity | constructor]).
  unfold msg_get, mbind, mret, M_bind, M_ret, bind, ret, lift. simpl.
  destruct (py_eq (default JNull (dict_get "event" d)) (JStr "property-change")).
  - destruct (py_eq (default JNull (dict_get "name" d)) (JStr "pause")).
    + use_client_log. unfold state_of, outputs_of. simpl.
      rewrite server_lines_app, Hsv. simpl. split; [reflexivity|].
      constructor; [apply stamped_stamp | constructor].
    + destruct (py_eq (default JNull (dict_get "name" d)) (JStr "time-pos"));
        [|split; [reflexivity | constructor]].
      destruct (default JNull (dict_get "data" d)) eqn:Hv; simpl.
      all: repeat match goal with
             | |- context [match int_to_float ?z with _ => _ end] =>
                 destruct (int_to_float z)
             end.
      all: try (split; [reflexivity | constructor]).
      all: use_client_log; unfold state_of, outputs_of; simpl;
        rewrite ?app_nil_r, ?server_lines_app, ?Hsv; simpl;
        (split; [reflexivity|]);
        try constructor; try apply stamped_stamp; try constructor.
  - destruct (py_eq (default JNull (dict_get "event" d)) (JStr "seek"));
      [|split; [reflexivity | constructor]].
    use_client_log. unfold state_of, outputs_of. simpl.
    rewrite ?app_nil_r, ?server_lines_app, ?Hsv.
    split; [reflexivity | constructor].
Qed.
End bridge_facts.

(** ** What holds of every line's outputs holds of a loop's *)

Section loop_facts.
Context {S E : Type}.
Variable Q : list E -> Prop.
Variable I : S -> Prop.
Hypothesis Q_nil : Q [].
Hypothesis Q_app : forall a b, Q a -> Q b -> Q (a ++ b).

Lemma for_each_outputs {A} (f : A -> M S E unit) :
  (forall x s, I s -> I (state_of (f x s)) /\ Q (outputs_of (f x s))) ->
  forall l s, I s ->
    I (state_of (for_each l f s)) /\ Q (outputs_of (for_each l f s)).
Proof.
  intros Hf. induction l as [|x l IH]; intros s Hs; [split; assumption|].
  simpl. unfold bind. destruct (Hf x s Hs) as [HI HQ].
  destruct (f x s) as [[s1 o1] [e|[]]]; unfold state_of, outputs_of in *;
    simpl in *; [split; assumption|].
  destruct (IH s1 HI) as [HI' HQ'].
  destruct (for_each l f s1) as [[s2 o2] r2]. simpl in *.
  split; [assumption | apply Q_app; assumption].
Qed.

Lemma recv_loop_outputs (on_line : string -> M S E unit) :
  (forall x s, I s -> I (state_of (on_line x s)) /\ Q (outputs_of (on_line x s))) ->
  forall chunks buffer s, I s ->
    I (state_of (recv_loop on_line buffer chunks s)) /\
    Q (outputs_of (recv_loop on_line buffer chunks s)).
Proof.
  intros Hf. induction chunks as [|data chunks IH]; intros buffer s Hs;
    [split; assumption|].
  simpl. destruct (String.eqb data ""); [split; assumption|].
  unfold mbind, M_bind, bind, on_data.
  destruct (split_lines (buffer +:+ data)) as [lines buffer'].
  destruct (for_each_outputs on_line Hf lines s Hs) as [HI HQ].
  unfold mbind, M_bind, bind.
  destruct (for_each lines on_line s) as [[s1 o1] [e|[]]];
    unfold state_of, outputs_of in *; simpl in *; [split; assumption|].
  destruct (IH buffer' s1 HI) as [HI' HQ'].
  destruct (recv_loop on_line buffer' chunks s1) as [[s2 o2] r2]. simpl in *.
  rewrite app_nil_r. split; [assumption | apply Q_app; assumption].
Qed.
End loop_facts.

(** C5.  Every line a bridge sends to the relay is the encoding of an
    event whose [source] is the bridge's own identity, put there before the
    encoding; and every line the relay writes for a message is the encoding
    of that message as it was decoded, [source] included. *)
Theorem source_identity_preserved `{Codec} :
  (forall c event,
     dict_get "source" (Client.stamp c event) = Some (JStr (Client.client_id c)) /\
     Client._send_to_server event c =
     (c, [Client.ServerSendall
            (json_dumps (JObj (Client.stamp c event)) +:+ String newline "")],
      inr tt)) /\
  (forall c chunks,
     state_of (Client._observe_mpv chunks c) = c /\
     Forall (stamped c) (server_lines (outputs_of (Client._observe_mpv chunks c)))) /\
  (forall net msg sender s,
     Forall (fun x => x.1.2 = json_dumps msg +:+ String newline "")
       (sends (outputs_of (Server._handle_message net msg sender s)))) /\
  (forall net line sender s,
     Forall (fun x => exists msg, json_loads line = Some msg /\
                        x.1.2 = json_dumps msg +:+ String newline "")
       (sends (outputs_of (Server.on_line net line sender s)))).
Proof.
  assert (Hrelay : forall net msg sender s,
     Forall (fun x => x.1.2 = json_dumps msg +:+ String newline "")
       (sends (outputs_of (Server._handle_message net msg sender s)))).
  { intros net msg sender s.
    pose proof (handle_decide net msg sender s) as Hd.
    destruct (Threads.decide s msg) as [|f v [e|[]]|e];
      apply summary_inv in Hd; destruct Hd as (_ & -> & _);
      try constructor. apply round_lines. }
  split; [|split; [|split]].
  - intros c event. split; [apply dict_get_set | reflexivity].
  - intros c chunks. unfold Client._observe_mpv, Client._send_to_mpv.
    unfold mbind, M_bind, bind, emit. simpl.
    assert (Hloop :
      state_of (recv_loop Client.observe_line "" chunks c) = c /\
      Forall (stamped c)
        (server_lines (outputs_of (recv_loop Client.observe_line "" chunks c)))).
    { apply (recv_loop_outputs
               (fun out => Forall (stamped c) (server_lines out))
               (fun s => s = c)).
      - constructor.
      - intros a b Ha Hb. rewrite server_lines_app. apply Forall_app_2; assumption.
      - intros x s ->. apply observe_line_stamped.
      - reflexivity. }
    destruct Hloop as [HI HQ].
    destruct (recv_loop Client.observe_line "" chunks c) as [[s1 o1] r1].
    unfold state_of, outputs_of in *. simpl in *. split; assumption.
  - exact Hrelay.
  - intros net line sender s. unfold Server.on_line.
    destruct (is_blank line); [constructor|].
    destruct (json_loads line) as [msg|].
    + eapply Forall_impl; [apply Hrelay|]. intros x Hx. exists msg. auto.
    + destruct (log_sends (Server.LogInvalidJSON line) s) as (_ & -> & _).
      constructor.
Qed.

Section listen_facts.
Context `{Codec}.

(** A received message that carries the bridge's own identity is
    dropped before anything is applied. *)
Lemma listen_line_own line d c :
  json_loads line = Some (JObj d) ->
  dict_get "source" d = Some (JStr (Client.client_id c)) ->
  Client.listen_line line c = (c, [], inr tt).
Proof.
  intros Hl Hs. unfold Client.listen_line.
  destruct (is_blank line); [reflexivity|]. rewrite Hl.
  unfold msg_get, mbind, mret, M_bind, M_ret, bind, ret, get. simpl.
  rewrite Hs. simpl. rewrite String.eqb_refl. reflexivity.
Qed.

(** [listen_line] looks at the event kind only to tell "pause" from
    "seek" or "time". *)
Lemma listen_line_seek_time line1 line2 d1 d2 c :
  is_blank line1 = false -> is_blank line2 = false ->
  json_loads line1 = Some (JObj d1) ->
  json_loads line2 = Some (JObj d2) ->
  dict_get "event" d1 = Some (JStr "seek") ->
  dict_get "event" d2 = Some (JStr "time") ->
  dict_get "raw_time" d1 = dict_get "raw_time" d2 ->
  dict_get "source" d1 = dict_get "source" d2 ->
  Client.listen_line line1 c = Client.listen_line line2 c.
Proof.
  intros Hb1 Hb2 Hl1 Hl2 He1 He2 Hraw Hsrc. unfold Client.listen_line.
  rewrite Hb1, Hb2, Hl1, Hl2.
  unfold msg_get, msg_index, mbind, mret, M_bind, M_ret, bind, ret, get. simpl.
  rewrite He1, He2, Hraw, Hsrc. reflexivity.
Qed.

(** A position from another peer becomes one [set_property time-pos]
    command to the player. *)
Lemma listen_line_applies_time line d kind (v : float) c :
  is_blank line = false ->
  json_loads line = Some (JObj d) ->
  dict_get "event" d = Some (JStr kind) ->
  kind = "seek" \/ kind = "time" ->
  dict_get "raw_time" d = Some (JFloat v) ->
  py_eq (default JNull (dict_get "source" d)) (JStr (Client.client_id c)) = false ->
  state_of (Client.listen_line line c) = c /\
  status_of (Client.listen_line line c) = inr tt /\
  mpv_lines (outputs_of (Client.listen_line line c)) =
  [json_dumps (JObj [("command",
      JArr [JStr "set_property"; JStr "time-pos"; JFloat v])])
   +:+ String newline ""].
Proof.
  intros Hb Hl He Hk Hv Hsrc. unfold Client.listen_line.
  rewrite Hb, Hl.
  unfold msg_get, msg_index, mbind, mret, M_bind, M_ret, bind, ret, get, lift.
  simpl. rewrite Hsrc, He, Hv.
  destruct Hk as [-> | ->]; simpl;
    destruct (client_log (Client.LogApplyTime (JFloat v)) c)
      as (out & Hlog & Hm & _);
    rewrite Hlog; unfold state_of, status_of, outputs_of; simpl;
    rewrite mpv_lines_app, Hm; auto.
Qed.
End listen_facts.

Lemma decide_seek_time s d1 d2 :
  dict_get "event" d1 = Some (JStr "seek") ->
  dict_get "event" d2 = Some (JStr "time") ->
  dict_get "raw_time" d1 = dict_get "raw_time" d2 ->
  Threads.decide s (JObj d1) = Threads.decide s (JObj d2).
Proof.
  intros He1 He2 Hraw. unfold Threads.decide. rewrite He1, He2, Hraw. reflexivity.
Qed.

(** C3.  No peer applies an event that carries its own identity.  The
    relay never writes a message back to the connection it came from; a
    bridge drops every received message whose [source] is its own identity
    and sends nothing to its player for it; and when every connection has
    an identity of its own, what the relay writes to a connection for a
    stamped event never carries that connection's identity. *)
Theorem no_self_echo `{Codec} (net : conn -> bool) (s : Server.SyncServer)
    (sender : conn) (owner : conn -> string) (c : Client.SyncClient)
    (event : dict) :
  Client.client_id c = owner sender ->
  (forall c', c' ∈ Server.clients s -> c' <> sender -> owner c' <> owner sender) ->
  (forall msg,
     sender ∉ recipients (sends (outputs_of (Server._handle_message net msg sender s)))) /\
  (forall line d,
     json_loads line = Some (JObj d) ->
     dict_get "source" d = Some (JStr (Client.client_id c)) ->
     Client.listen_line line c = (c, [], inr tt)) /\
  (forall c',
     c' ∈ recipients (sends (outputs_of
            (Server._handle_message net (JObj (Client.stamp c event)) sender s))) ->
     dict_get "source" (Client.stamp c event) <> Some (JStr (owner c'))).
Proof.
  intros Hid Hown.
  assert (Hsub : forall msg c',
    c' ∈ recipients (sends (outputs_of (Server._handle_message net msg sender s))) ->
    c' ∈ Server.clients s /\ c' <> sender).
  { intros msg c' Hin.
    pose proof (handle_decide net msg sender s) as Hd.
    destruct (Threads.decide s msg) as [|f v [e|[]]|e];
      apply summary_inv in Hd; destruct Hd as (_ & Ho & _); rewrite Ho in Hin;
      try (apply elem_of_nil in Hin; contradiction).
    apply (round_exactly_once net msg sender (Server.clients s)) in Hin.
    exact Hin. }
  split; [|split].
  - intros msg Hin. apply Hsub in Hin. tauto.
  - intros line d. apply listen_line_own.
  - intros c' Hin Hsrc. apply Hsub in Hin. destruct Hin as [Hc' Hne].
    unfold Client.stamp in Hsrc. rewrite dict_get_set, Hid in Hsrc.
    injection Hsrc as Hsrc. apply (Hown c' Hc' Hne). symmetry. exact Hsrc.
Qed.

(** Peer 1 owns identity "A"; the pause it sends reaches peers 2 and 3
    only, and its own bridge would drop it. *)
Lemma no_self_echo_witness :
  (1 ∉ recipients (sends (outputs_of
         (@Server._handle_message demo_codec (fun _ => true)
            (JObj (pause_msg true "A")) 1 demo_relay)))) /\
  (@Client.listen_line demo_codec pause_line (Client.mkSyncClient "A" true) =
   (Client.mkSyncClient "A" true, [], inr tt)).
Proof.
  destruct (@no_self_echo demo_codec (fun _ => true) demo_relay 1
              (fun c' => if Nat.eqb c' 1 then "A" else "B")
              (Client.mkSyncClient "A" true) (pause_msg true "A") eq_refl)
    as (Hhub & Hpeer & _).
  - intros c' _ Hne. simpl. destruct (Nat.eqb_spec c' 1); [contradiction|discriminate].
  - split.
    + apply Hhub.
    + apply (Hpeer pause_line (pause_msg true "A")); reflexivity.
Defined.

(** C10.  The relay and the bridge treat an event of kind "seek" as they
    treat one of kind "time": with the same [raw_time] the relay takes the
    same decision by the same drift test, leaves the same state and writes
    to the same peers, each the event as it came; a bridge that receives it
    sends its player the same [set_property time-pos] command. *)
Theorem seek_handled_like_time `{Codec} (net : conn -> bool)
    (s : Server.SyncServer) (d1 d2 : dict) (sender : conn)
    (c : Client.SyncClient) (line1 line2 : string) :
  dict_get "event" d1 = Some (JStr "seek") ->
  dict_get "event" d2 = Some (JStr "time") ->
  dict_get "raw_time" d1 = dict_get "raw_time" d2 ->
  dict_get "source" d1 = dict_get "source" d2 ->
  json_loads line1 = Some (JObj d1) ->
  json_loads line2 = Some (JObj d2) ->
  is_blank line1 = false ->
  is_blank line2 = false ->
  let r1 := Server._handle_message net (JObj d1) sender s in
  let r2 := Server._handle_message net (JObj d2) sender s in
  state_of r1 = state_of r2 /\
  status_of r1 = status_of r2 /\
  recipients (sends (outputs_of r1)) = recipients (sends (outputs_of r2)) /\
  Forall (fun x => x.1.2 = json_dumps (JObj d1) +:+ String newline "")
    (sends (outputs_of r1)) /\
  (forall v P : float,
     dict_get "raw_time" d1 = Some (JFloat v) ->
     Server.current_time s = JFloat P ->
     summary r1 =
     if py_gt (NFloat (PrimFloat.abs (PrimFloat.sub v P))) (Server.time_tolerance s)
     then (Server.set_current_time (JFloat v) s,
           round net (JObj d1) sender (elements (Server.clients s)), inr tt)
     else (s, [], inr tt)) /\
  Client.listen_line line1 c = Client.listen_line line2 c /\
  (forall v : float,
     dict_get "raw_time" d1 = Some (JFloat v) ->
     py_eq (default JNull (dict_get "source" d1)) (JStr (Client.client_id c)) = false ->
     mpv_lines (outputs_of (Client.listen_line line1 c)) =
     [json_dumps (JObj [("command",
         JArr [JStr "set_property"; JStr "time-pos"; JFloat v])])
      +:+ String newline ""]).
Proof.
  intros He1 He2 Hraw Hsrc Hl1 Hl2 Hb1 Hb2 r1 r2.
  pose proof (handle_decide net (JObj d1) sender s) as Hd1.
  pose proof (handle_decide net (JObj d2) sender s) as Hd2.
  rewrite <- (decide_seek_time s d1 d2 He1 He2 Hraw) in Hd2.
  fold r1 in Hd1. fold r2 in Hd2.
  assert (Hsame : state_of r1 = state_of r2 /\ status_of r1 = status_of r2 /\
            recipients (sends (outputs_of r1)) = recipients (sends (outputs_of r2)) /\
            Forall (fun x => x.1.2 = json_dumps (JObj d1) +:+ String newline "")
              (sends (outputs_of r1))).
  { destruct (Threads.decide s (JObj d1)) as [|f v [e|[]]|e];
      apply summary_inv in Hd1; apply summary_inv in Hd2;
      destruct Hd1 as (-> & -> & ->); destruct Hd2 as (-> & -> & ->);
      (split; [reflexivity|]); (split; [reflexivity|]);
      try (split; [reflexivity | constructor]).
    split; [rewrite !recipients_round; reflexivity | apply round_lines]. }
  destruct Hsame as (Hs & Hr & Hrec & Hlines).
  split; [exact Hs|]. split; [exact Hr|]. split; [exact Hrec|].
  split; [exact Hlines|]. split; [|split].
  - intros v P Hv HP.
    pose proof (handle_decide net (JObj d1) sender s) as Hd.
    rewrite (decide_time s d1 "seek" v P He1 (or_introl eq_refl) Hv HP) in Hd.
    fold r1 in Hd. rewrite Hd.
    destruct (py_gt _ (Server.time_tolerance s)); reflexivity.
  - apply (listen_line_seek_time line1 line2 d1 d2); assumption.
  - intros v Hv Hother.
    apply (listen_line_applies_time line1 d1 "seek" v c); auto.
Qed.

(** The seek to 103.5 and the time 103.5 of peer "A", met at position
    100.0 with tolerance 2.5 s and received by peer "B". *)
Lemma seek_handled_like_time_witness :
  let r1 := @Server._handle_message demo_codec (fun _ => true)
              (JObj (time_msg "seek" 103.5%float "A")) 1 demo_relay in
  let r2 := @Server._handle_message demo_codec (fun _ => true)
              (JObj (time_msg "time" 103.5%float "A")) 1 demo_relay in
  state_of r1 = state_of r2 /\
  recipients (sends (outputs_of r1)) = recipients (sends (outputs_of r2)) /\
  @Client.listen_line demo_codec seek_line (Client.mkSyncClient "B" false) =
  @Client.listen_line demo_codec time_line (Client.mkSyncClient "B" false).
Proof.
  destruct (@seek_handled_like_time demo_codec (fun _ => true) demo_relay
              (time_msg "seek" 103.5%float "A") (time_msg "time" 103.5%float "A")
              1 (Client.mkSyncClient "B" false) seek_line time_line
              eq_refl eq_refl eq_refl eq_refl eq_refl eq_refl eq_refl eq_refl)
    as (Hs & _ & Hrec & _ & _ & Hlisten & _).
  split; [exact Hs|]. split; [exact Hrec | exact Hlisten].
Defined.

(** ** Malformed lines *)

Lemma split_malformed_chunk : split_lines ("" +:+ malformed_chunk) = (["{not json"], "").
Proof. vm_compute. reflexivity. Qed.

Lemma malformed_chunk_not_empty : String.eqb malformed_chunk "" = false.
Proof. vm_compute. reflexivity. Qed.

Section malformed_facts.
Context `{Codec}.

(** The relay logs the line that does not decode, drops it, and goes on
    with the stream as if the line had not come; its peer stays
    registered. *)
Lemma relay_skips_malformed_line net conn chunks s :
  json_loads "{not json" = None ->
  recv_loop (fun line => Server.on_line net line conn) "" (malformed_chunk :: chunks) s =
  match recv_loop (fun line => Server.on_line net line conn) "" chunks s with
  | (s', out, r) =>
      (s', (if Server.debug s
            then [Server.Print (Server.LogInvalidJSON "{not json")] else []) ++ out, r)
  end.
Proof.
  intros Hbad.
  assert (Hline : Server.on_line net "{not json" conn s =
            (s, if Server.debug s
                then [Server.Print (Server.LogInvalidJSON "{not json")] else [],
             inr tt)).
  { unfold Server.on_line. simpl is_blank. rewrite Hbad.
    unfold Server._log, mbind, mret, M_bind, M_ret, bind, ret, get, emit. simpl.
    destruct (Server.debug s); reflexivity. }
  cbn [recv_loop]. rewrite malformed_chunk_not_empty.
  unfold on_data. rewrite split_malformed_chunk. cbn [for_each].
  unfold mbind, mret, M_bind, M_ret, bind, ret. rewrite Hline.
  destruct (recv_loop _ "" chunks s) as [[s' out] r].
  rewrite !app_nil_r. reflexivity.
Qed.
End malformed_facts.

(** C4 fails on the bridge.  When a line that does not decode arrives,
    [_listen_server] raises [JSONDecodeError] at once: nothing is logged, the
    loop is over, and no later event of the stream reaches the player.
    [_observe_mpv] ends in the same way once its two subscriptions are
    sent. *)
Theorem bridge_stops_at_malformed_line `{Codec} (c : Client.SyncClient)
    (chunks : list string) :
  json_loads "{not json" = None ->
  Client._listen_server (malformed_chunk :: chunks) c = (c, [], inl JSONDecodeError) /\
  status_of (Client._observe_mpv (malformed_chunk :: chunks) c) = inl JSONDecodeError /\
  server_lines (outputs_of (Client._observe_mpv (malformed_chunk :: chunks) c)) = [].
Proof.
  intros Hbad.
  assert (Hlisten : recv_loop Client.listen_line "" (malformed_chunk :: chunks) c
                    = (c, [], inl JSONDecodeError)).
  { assert (Hline : Client.listen_line "{not json" c = (c, [], inl JSONDecodeError)).
    { unfold Client.listen_line. simpl is_blank. rewrite Hbad. reflexivity. }
    cbn [recv_loop]. rewrite malformed_chunk_not_empty.
    unfold on_data. rewrite split_malformed_chunk. cbn [for_each].
    unfold mbind, mret, M_bind, M_ret, bind, ret. rewrite Hline. reflexivity. }
  assert (Hobserve : recv_loop Client.observe_line "" (malformed_chunk :: chunks) c
                     = (c, [], inl JSONDecodeError)).
  { assert (Hline : Client.observe_line "{not json" c = (c, [], inl JSONDecodeError)).
    { unfold Client.observe_line. simpl is_blank. rewrite Hbad. reflexivity. }
    cbn [recv_loop]. rewrite malformed_chunk_not_empty.
    unfold on_data. rewrite split_malformed_chunk. cbn [for_each].
    unfold mbind, mret, M_bind, M_ret, bind, ret. rewrite Hline. reflexivity. }
  split; [exact Hlisten|].
  unfold Client._observe_mpv, Client._send_to_mpv.
  unfold mbind, M_bind, bind, emit. rewrite Hobserve.
  split; reflexivity.
Qed.

(** The malformed line, then a pause from peer "A": the bridge of peer
    "B" applies nothing. *)
Lemma bridge_stops_at_malformed_line_witness :
  @Client._listen_server demo_codec
    [malformed_chunk; pause_line +:+ String newline ""]
    (Client.mkSyncClient "B" true) =
  (Client.mkSyncClient "B" true, [], inl JSONDecodeError).
Proof.
  apply (@bridge_stops_at_malformed_line demo_codec (Client.mkSyncClient "B" true)
           [pause_line +:+ String newline ""] eq_refl).
Defined.

(** The same stream at the relay: the line is logged and dropped, the
    pause that follows is taken and written to peers 2 and 3. *)
Example relay_goes_on_after_malformed_line :
  let r := recv_loop (fun line => @Server.on_line demo_codec (fun _ => true) line 1) ""
             [malformed_chunk; pause_line +:+ String newline ""] demo_relay in
  status_of r = inr tt /\
  Server.clients (state_of r) = Server.clients demo_relay /\
  Server.current_pause (state_of r) = JBool true /\
  outputs_of r =
  [Server.Print (Server.LogInvalidJSON "{not json");
   Server.Print (Server.LogUpdatePause (JBool true));
   Server.Sendall 2 ("pause" +:+ String newline "") true;
   Server.Sendall 3 ("pause" +:+ String newline "") true].
Proof. vm_compute. repeat split; reflexivity. Qed.

(** A line that decodes to something that is not an object ends the
    peer's [handle_client]: [AttributeError], the peer deregistered and its
    connection closed. *)
Example relay_closes_on_non_object :
  let r := Server._handle_errors
             (@Server.handle_client demo_codec (fun _ => true) 1
                ["[]" +:+ String newline ""; pause_line +:+ String newline ""])
             demo_relay in
  Server.clients (state_of r) = {[2; 3]} /\
  outputs_of r =
  [Server.Print (Server.LogConnect 1);
   Server.Print (Server.LogDisconnect 1);
   Server.Close 1;
   Server.Print (Server.LogException AttributeError)].
Proof. vm_compute. repeat split; reflexivity. Qed.

(** ** [connect] *)

(** What the retry loop returns, read back on the attempts: every sleep
    follows a refusal met before the deadline, and the loop ends at the
    first attempt that is anything else. *)
Lemma dial_mpv_spec deadline attempts : forall n r,
  Client.dial_mpv deadline attempts = (n, r) ->
  (forall i, i < n ->
     exists a e, attempts !! i = Some a /\ Client.dial a = Some e /\
                 Client.retried e = true /\ (Client.clock a <= deadline)%Z) /\
  match r with
  | Client.Retrying => length attempts = n
  | Client.Connected => exists a, attempts !! n = Some a /\ Client.dial a = None
  | Client.Raised e =>
      exists a, attempts !! n = Some a /\
        ((exists e0, Client.dial a = Some e0 /\ Client.retried e0 = true /\
                     (deadline < Client.clock a)%Z /\ e = TimeoutError) \/
         (Client.dial a = Some e /\ Client.retried e = false))
  end.
Proof.
  induction attempts as [|a attempts IH]; intros n r Hrun; simpl in Hrun.
  - injection Hrun as <- <-. split; [lia | reflexivity].
  - destruct (Client.dial a) as [e|] eqn:Hdial.
    + destruct (Client.retried e) eqn:Hret.
      * destruct (Z.gtb_spec (Client.clock a) deadline) as [Hlate|Hearly].
        -- injection Hrun as <- <-. split; [lia|].
           exists a. split; [reflexivity|]. left. exists e. auto.
        -- destruct (Client.dial_mpv deadline attempts) as [n' r'] eqn:Hrest.
           injection Hrun as <- <-.
           destruct (IH n' r' eq_refl) as [Hsleeps Hend]. split.
           ++ intros [|i] Hi.
              ** exists a, e. auto.
              ** apply Hsleeps. lia.
           ++ destruct r'; simpl; auto.
      * injection Hrun as <- <-. split; [lia|].
        exists a. split; [reflexivity|]. right. auto.
    + injection Hrun as <- <-. split; [lia|].
      exists a. auto.
Qed.

(** With the clock at least 0.1 s further at each retry, a socket that
    keeps refusing makes the loop raise [TimeoutError] within 52 attempts. *)
Lemma dial_mpv_times_out now attempts : forall k,
  Forall (fun a => exists e, Client.dial a = Some e /\ Client.retried e = true) attempts ->
  (forall i a, attempts !! i = Some a ->
     (now + 100 * Z.of_nat (k + i) <= Client.clock a)%Z) ->
  k <= 51 -> 52 <= k + length attempts ->
  exists n, k + n <= 51 /\
    Client.dial_mpv (now + 5000) attempts = (n, Client.Raised TimeoutError).
Proof.
  induction attempts as [|a attempts IH]; intros k Hall Hclock Hk Hlen.
  - simpl in Hlen. lia.
  - apply Forall_cons in Hall as [(e & Hdial & Hret) Hall].
    pose proof (Hclock 0 a eq_refl) as Ha. simpl. rewrite Hdial, Hret.
    destruct (Z.gtb_spec (Client.clock a) (now + 5000)) as [Hlate|Hearly].
    + exists 0. split; [lia | reflexivity].
    + destruct (IH (Datatypes.S k) Hall) as (n & Hn & Hrun).
      * intros i b Hb. specialize (Hclock (Datatypes.S i) b Hb).
        replace (Datatypes.S k + i) with (k + Datatypes.S i) by lia. exact Hclock.
      * lia.
      * simpl in Hlen. lia.
      * exists (Datatypes.S n). rewrite Hrun. split; [lia | reflexivity].
Qed.

(** C7, as the code has it.  While the player's socket is not found or
    refuses, [connect] sleeps 0.1 s and tries again; the first such failure
    met after the 5 s deadline raises [TimeoutError], which a clock that
    advances by the sleeps brings within 52 attempts.  [connect] returns
    only when both sockets are connected, and what it raises is the timeout,
    or another error of the player's socket, or the error of the relay's
    socket. *)
Theorem connect_retries_until_deadline (now : Z)
    (attempts : list Client.attempt) (server : option exn) :
  (Forall (fun a => exists e, Client.dial a = Some e /\ Client.retried e = true)
     attempts ->
   (forall i a, attempts !! i = Some a ->
      (now + 100 * Z.of_nat i <= Client.clock a)%Z) ->
   52 <= length attempts ->
   exists n, n <= 51 /\
     Client.connect now attempts server = (n, Client.Raised TimeoutError)) /\
  (forall n r, Client.connect now attempts server = (n, r) ->
     forall i, i < n ->
       exists a e, attempts !! i = Some a /\ Client.dial a = Some e /\
                   Client.retried e = true /\ (Client.clock a <= now + 5000)%Z) /\
  (forall n, Client.connect now attempts server = (n, Client.Connected) ->
     server = None /\ exists a, attempts !! n = Some a /\ Client.dial a = None) /\
  (forall n e, Client.connect now attempts server = (n, Client.Raised e) ->
     exists a, attempts !! n = Some a /\
       ((exists e0, Client.dial a = Some e0 /\ Client.retried e0 = true /\
                    (now + 5000 < Client.clock a)%Z /\ e = TimeoutError) \/
        (Client.dial a = Some e /\ Client.retried e = false) \/
        (Client.dial a = None /\ server = Some e))).
Proof.
  unfold Client.connect. split; [|split; [|split]].
  - intros Hall Hclock Hlen.
    destruct (dial_mpv_times_out now attempts 0 Hall Hclock) as (n & Hn & Hrun);
      [lia | lia |].
    exists n. rewrite Hrun. split; [lia | reflexivity].
  - intros n r Hrun.
    destruct (Client.dial_mpv (now + 5000) attempts) as [n' r'] eqn:Hloop.
    destruct (dial_mpv_spec _ _ _ _ Hloop) as [Hsleeps _].
    destruct r'; [destruct server|..]; injection Hrun as <- <-; exact Hsleeps.
  - intros n Hrun.
    destruct (Client.dial_mpv (now + 5000) attempts) as [n' r'] eqn:Hloop.
    destruct (dial_mpv_spec _ _ _ _ Hloop) as [_ Hend].
    destruct r'; [destruct server|..]; try discriminate.
    injection Hrun as <-. split; [reflexivity | exact Hend].
  - intros n e Hrun.
    destruct (Client.dial_mpv (now + 5000) attempts) as [n' r'] eqn:Hloop.
    destruct (dial_mpv_spec _ _ _ _ Hloop) as [_ Hend].
    destruct r' as [|e'|]; [destruct server as [e'|]|..]; try discriminate.
    + injection Hrun as <- <-. destruct Hend as (a & Ha & Hdial).
      exists a. split; [exact Ha|]. right. right. auto.
    + injection Hrun as <- <-. destruct Hend as (a & Ha & [Hlate | Hother]).
      * exists a. split; [exact Ha|]. left. exact Hlate.
      * exists a. split; [exact Ha|]. right. left. exact Hother.
Qed.

Lemma refusing_lookup n i a :
  refusing n !! i = Some a ->
  Client.dial a = Some ConnectionRefusedError /\ Client.clock a = (100 * Z.of_nat i)%Z.
Proof.
  unfold refusing. intros Ha.
  apply list_lookup_fmap_Some in Ha as (j & -> & Hj).
  apply lookup_seq in Hj as [-> _]. split; reflexivity.
Qed.

(** The player never listens: started at clock 0, [connect] sleeps 51
    times and raises [TimeoutError] at the attempt of second 5.1. *)
Lemma connect_retries_until_deadline_witness :
  exists n, n <= 51 /\
    Client.connect 0 (refusing 60) None = (n, Client.Raised TimeoutError).
Proof.
  destruct (connect_retries_until_deadline 0 (refusing 60) None) as [Htimeout _].
  apply Htimeout.
  - apply Forall_forall. intros a Ha.
    apply list_elem_of_lookup in Ha as [i Hi].
    apply refusing_lookup in Hi as [Hdial _].
    exists ConnectionRefusedError. split; [exact Hdial | reflexivity].
  - intros i a Hi. apply refusing_lookup in Hi as [_ ->]. lia.
  - unfold refusing. rewrite length_map, length_seq. lia.
Defined.

Example connect_times_out_after_51_sleeps :
  Client.connect 0 (refusing 60) None = (51, Client.Raised TimeoutError).
Proof. vm_compute. reflexivity. Qed.

Example connect_succeeds_at_third_attempt :
  Client.connect 0 (refusing 2 ++ [Client.mkAttempt None 0]) None = (2, Client.Connected).
Proof. vm_compute. reflexivity. Qed.

(** C7 as stated fails: the timeout is not the only error of the start
    that is fatal.  The player's socket connects at once and the relay
    refuses: [connect] raises [ConnectionRefusedError] to [main]; and an
    error of the player's socket that is neither "not found" nor "refused"
    is raised at once, without a retry. *)
Lemma connect_relay_refused_is_fatal :
  Client.connect 0 [Client.mkAttempt None 0] (Some ConnectionRefusedError) =
    (0, Client.Raised ConnectionRefusedError) /\
  Client.connect 0 [Client.mkAttempt (Some OSError) 0] None =
    (0, Client.Raised OSError) /\
  ConnectionRefusedError <> TimeoutError /\ OSError <> TimeoutError.
Proof. repeat split; discriminate. Qed.

(** ** The relay's threads and the lock *)

Section thread_facts.
Context `{Codec}.

Lemma threads_lookup_insert (ts : list Threads.phase) i j p p' :
  ts !! i = Some p ->
  <[i := p']> ts !! j = if decide (j = i) then Some p' else ts !! j.
Proof.
  intros Hi. destruct (decide (j = i)) as [->|Hne].
  - apply list_lookup_insert_eq. eapply lookup_lt_Some, Hi.
  - apply list_lookup_insert_ne. auto.
Qed.

Lemma assign_clients f v s :
  Server.clients (Threads.assign f v s) = Server.clients s.
Proof. destruct f; reflexivity. Qed.

Ltac thread_cases Hp j i :=
  unfold Threads.in_round; simpl;
  rewrite (threads_lookup_insert _ i j _ _ Hp);
  destruct (decide (j = i)) as [->|?].

(** A step keeps the lock with the thread that is in its round, and the
    round among the registered peers. *)
Lemma step_preserves i cfg cfg' :
  Threads.lock_inv cfg -> Threads.round_inv cfg ->
  Threads.step_thread i cfg = Some cfg' ->
  Threads.lock_inv cfg' /\ Threads.round_inv cfg'.
Proof.
  intros Hlock Hround Hstep. unfold Threads.step_thread in Hstep.
  destruct (Threads.threads cfg !! i) as [p|] eqn:Hp; [|discriminate].
  assert (Hnot : (forall raw sender todo, p <> Threads.Sending raw sender todo) ->
            Threads.lock cfg <> Some i).
  { intros Hne Hl. apply Hlock in Hl. destruct Hl as (raw & sender & todo & Hl).
    rewrite Hp in Hl. injection Hl as ->. eapply Hne; reflexivity. }
  destruct p as [msg sender|f v fmt msg sender|msg sender|raw sender todo|c|c| |e].
  - (* the comparison *)
    injection Hstep as <-. split.
    + intros j. thread_cases Hp j i.
      * split; [intros Hl; exfalso; revert Hl; apply Hnot; discriminate|].
        intros (raw & sd & todo & Hs). injection Hs as Hs.
        destruct (Threads.decide _ msg) as [|? ? ?|?]; discriminate.
      * apply Hlock.
    + intros j raw sd todo. simpl.
      rewrite (threads_lookup_insert _ i j _ _ Hp).
      destruct (decide (j = i)) as [->|?]; [|apply Hround].
      intros Hs. injection Hs as Hs.
      destruct (Threads.decide _ msg) as [|? ? ?|?]; discriminate.
  - (* the assignment *)
    injection Hstep as <-. split.
    + intros j. thread_cases Hp j i.
      * split; [intros Hl; exfalso; revert Hl; apply Hnot; discriminate|].
        intros (raw & sd & todo & Hs). destruct fmt; discriminate.
      * apply Hlock.
    + intros j raw sd todo. simpl. rewrite assign_clients.
      rewrite (threads_lookup_insert _ i j _ _ Hp).
      destruct (decide (j = i)) as [->|?]; [|apply Hround].
      intros Hs. destruct fmt; discriminate.
  - (* taking the lock *)
    destruct (Threads.lock cfg) as [k|] eqn:Hfree; [discriminate|].
    injection Hstep as <-. split.
    + intros j. thread_cases Hp j i.
      * split; [eauto | reflexivity].
      * split; [intros [= ->]; contradiction|].
        intros Hin. apply Hlock in Hin. congruence.
    + intros j raw sd todo. simpl.
      rewrite (threads_lookup_insert _ i j _ _ Hp).
      destruct (decide (j = i)) as [->|?].
      * intros [= <- <- <-] c Hc. apply elem_of_elements. exact Hc.
      * intros Hs. assert (Hin : Threads.in_round cfg j) by (repeat eexists; eauto).
        apply Hlock in Hin. congruence.
  - (* inside the round *)
    assert (Hmine : Threads.lock cfg = Some i).
    { apply Hlock. repeat eexists. exact Hp. }
    destruct todo as [|client todo]; injection Hstep as <-; split.
    + intros j. thread_cases Hp j i.
      * split; [discriminate|]. intros (? & ? & ? & ?). discriminate.
      * split; [discriminate|]. intros Hin. apply Hlock in Hin. congruence.
    + intros j raw' sd todo'. simpl.
      rewrite (threads_lookup_insert _ i j _ _ Hp).
      destruct (decide (j = i)) as [->|?]; [discriminate | apply Hround].
    + intros j. thread_cases Hp j i.
      * split; [eauto | intros _; exact Hmine].
      * apply Hlock.
    + intros j raw' sd todo'. simpl.
      rewrite (threads_lookup_insert _ i j _ _ Hp).
      destruct (decide (j = i)) as [->|?]; [|apply Hround].
      intros [= <- <- <-] c Hc. eapply Hround; [exact Hp|].
      apply elem_of_cons. right. exact Hc.
  - (* registering *)
    destruct (Threads.lock cfg) as [k|] eqn:Hfree; [discriminate|].
    injection Hstep as <-. split.
    + intros j. thread_cases Hp j i.
      * split; [discriminate|]. intros (? & ? & ? & ?). discriminate.
      * split; [discriminate|]. intros Hin. apply Hlock in Hin. congruence.
    + intros j raw sd todo. simpl.
      rewrite (threads_lookup_insert _ i j _ _ Hp).
      destruct (decide (j = i)) as [->|?]; [discriminate|].
      intros Hs. assert (Hin : Threads.in_round cfg j) by (repeat eexists; eauto).
      apply Hlock in Hin. congruence.
  - (* deregistering *)
    destruct (Threads.lock cfg) as [k|] eqn:Hfree; [discriminate|].
    injection Hstep as <-. split.
    + intros j. thread_cases Hp j i.
      * split; [discriminate|]. intros (? & ? & ? & ?). discriminate.
      * split; [discriminate|]. intros Hin. apply Hlock in Hin. congruence.
    + intros j raw sd todo. simpl.
      rewrite (threads_lookup_insert _ i j _ _ Hp).
      destruct (decide (j = i)) as [->|?]; [discriminate|].
      intros Hs. assert (Hin : Threads.in_round cfg j) by (repeat eexists; eauto).
      apply Hlock in Hin. congruence.
  - discriminate.
  - discriminate.
Qed.

Lemma run_preserves schedule : forall cfg cfg',
  Threads.lock_inv cfg -> Threads.round_inv cfg ->
  Threads.run schedule cfg = Some cfg' ->
  Threads.lock_inv cfg' /\ Threads.round_inv cfg'.
Proof.
  induction schedule as [|i schedule IH]; intros cfg cfg' Hlock Hround Hrun;
    simpl in Hrun.
  - injection Hrun as <-. auto.
  - destruct (Threads.step_thread i cfg) as [cfg1|] eqn:Hstep; [|discriminate].
    destruct (step_preserves i cfg cfg1 Hlock Hround Hstep) as [Hlock1 Hround1].
    eapply IH; eauto.
Qed.

Lemma initial_inv cfg :
  Threads.initial cfg -> Threads.lock_inv cfg /\ Threads.round_inv cfg.
Proof.
  intros [Hfree Hnone]. split.
  - intros i. rewrite Hfree. split; [discriminate|].
    intros Hin. exfalso. exact (Hnone i Hin).
  - intros i raw sender todo Hs. exfalso. apply (Hnone i). repeat eexists. exact Hs.
Qed.
End thread_facts.

Section solo_facts.
Context `{Codec}.

Lemma run_app s1 s2 cfg :
  Threads.run (s1 ++ s2) cfg =
  match Threads.run s1 cfg with
  | Some cfg' => Threads.run s2 cfg'
  | None => None
  end.
Proof.
  revert cfg. induction s1 as [|i s1 IH]; intros cfg; [reflexivity|].
  simpl. destruct (Threads.step_thread i cfg); [apply IH | reflexivity].
Qed.

(** A thread alone in its round visits the rest of its copy. *)
Lemma run_round raw sender todo : forall s l tr,
  Threads.run (replicate (length todo) 0)
    (Threads.mkConfig s l [Threads.Sending raw sender todo] tr) =
  Some (Threads.mkConfig s l [Threads.Sending raw sender []]
          (tr ++ round_trace 0 raw sender todo)).
Proof.
  induction todo as [|c todo IH]; intros s l tr.
  - simpl. unfold round_trace. simpl. rewrite app_nil_r. reflexivity.
  - simpl. rewrite IH. unfold round_trace. rewrite filter_cons.
    destruct (decide (c <> sender)) as [Hne|Heq].
    + assert (Hb : negb (Nat.eqb c sender) = true)
        by (apply negb_true_iff, Nat.eqb_neq; exact Hne).
      rewrite Hb. simpl. rewrite <- app_assoc. reflexivity.
    + assert (Hb : negb (Nat.eqb c sender) = false).
      { apply negb_false_iff, Nat.eqb_eq. destruct (decide (c = sender)); tauto. }
      rewrite Hb. reflexivity.
Qed.

Lemma run_guard schedule s l msg sender tr :
  Threads.run (0 :: schedule) (Threads.mkConfig s l [Threads.Guard msg sender] tr) =
  Threads.run schedule
    (Threads.mkConfig s l
       [Threads.after_guard (Threads.decide s msg) msg sender] tr).
Proof. reflexivity. Qed.

Lemma run_write schedule s l f v fmt msg sender tr :
  Threads.run (0 :: schedule)
    (Threads.mkConfig s l [Threads.Write f v fmt msg sender] tr) =
  Threads.run schedule
    (Threads.mkConfig (Threads.assign f v s) l
       [match fmt with
        | inl e => Threads.Crashed e
        | inr _ => Threads.Acquire msg sender
        end] tr).
Proof. reflexivity. Qed.

Lemma run_acquire schedule s msg sender tr :
  Threads.run (0 :: schedule)
    (Threads.mkConfig s None [Threads.Acquire msg sender] tr) =
  Threads.run schedule
    (Threads.mkConfig s (Some 0)
       [Threads.Sending (json_dumps msg +:+ String newline "") sender
          (elements (Server.clients s))] tr).
Proof. reflexivity. Qed.

Lemma run_release s l raw sender tr :
  Threads.run [0] (Threads.mkConfig s l [Threads.Sending raw sender []] tr) =
  Some (Threads.mkConfig s None [Threads.Finished] tr).
Proof. reflexivity. Qed.

(** Left alone, a thread steps through [_handle_message] to the state
    and the writes the function itself gives. *)
Lemma solo_run net msg sender s :
  exists schedule cfg,
    Threads.run schedule (Threads.mkConfig s None [Threads.Guard msg sender] []) = Some cfg /\
    Threads.quiescent cfg = true /\
    Threads.lock cfg = None /\
    Threads.srv cfg = state_of (Server._handle_message net msg sender s) /\
    map (fun x => (x.1.2, x.2)) (Threads.sent cfg) =
    map (fun x => (x.1.1, x.1.2))
      (sends (outputs_of (Server._handle_message net msg sender s))).
Proof.
  pose proof (handle_decide net msg sender s) as Hd.
  destruct (Threads.decide s msg) as [|f v [e|[]]|e] eqn:Hdec;
    apply summary_inv in Hd; destruct Hd as (-> & -> & _).
  - exists [0], (Threads.mkConfig s None [Threads.Finished] []).
    rewrite run_guard, Hdec. repeat split; reflexivity.
  - exists [0; 0], (Threads.mkConfig (Threads.assign f v s) None [Threads.Crashed e] []).
    rewrite run_guard, Hdec. simpl Threads.after_guard. rewrite run_write.
    repeat split; reflexivity.
  - exists ([0; 0; 0] ++ replicate (length (elements (Server.clients s))) 0 ++ [0]),
      (Threads.mkConfig (Threads.assign f v s) None [Threads.Finished]
         ([] ++ round_trace 0 (json_dumps msg +:+ String newline "") sender
                  (elements (Server.clients s)))).
    simpl app at 1. rewrite run_guard, Hdec. simpl Threads.after_guard.
    rewrite run_write, run_acquire, assign_clients, run_app, run_round, run_release.
    split; [reflexivity|]. split; [reflexivity|]. split; [reflexivity|].
    split; [reflexivity|].
    unfold round_trace, round. simpl. rewrite !map_map. reflexivity.
  - exists [0], (Threads.mkConfig s None [Threads.Crashed e] []).
    rewrite run_guard, Hdec. repeat split; reflexivity.
Qed.
End solo_facts.

(** C8, as the code has it.  The lock guards the set of registered peers
    and the round of writes, not the canonical state.  From a start where
    nobody holds the lock, whatever the threads have done: the lock is held
    exactly by the thread that is inside its round, so two rounds never
    overlap; the peers a round still has to visit are registered; a thread
    takes its comparison and makes its assignment whether the lock is held
    or not; and a thread enters its round, or changes the set of peers, only
    when the lock is free. *)
Theorem broadcast_rounds_exclusive `{Codec} (cfg0 cfg : Threads.config) :
  Threads.initial cfg0 ->
  Threads.reachable cfg0 cfg ->
  Threads.lock_inv cfg /\
  (forall i j, Threads.in_round cfg i -> Threads.in_round cfg j -> i = j) /\
  Threads.round_inv cfg /\
  (forall i msg sender,
     Threads.threads cfg !! i = Some (Threads.Guard msg sender) ->
     exists cfg', Threads.step_thread i cfg = Some cfg' /\
                  Threads.lock cfg' = Threads.lock cfg /\
                  Threads.srv cfg' = Threads.srv cfg) /\
  (forall i f v fmt msg sender,
     Threads.threads cfg !! i = Some (Threads.Write f v fmt msg sender) ->
     exists cfg', Threads.step_thread i cfg = Some cfg' /\
                  Threads.lock cfg' = Threads.lock cfg /\
                  Threads.srv cfg' = Threads.assign f v (Threads.srv cfg)) /\
  (forall i msg sender,
     Threads.threads cfg !! i = Some (Threads.Acquire msg sender) ->
     (is_Some (Threads.step_thread i cfg) <-> Threads.lock cfg = None)) /\
  (forall i cfg',
     Threads.step_thread i cfg = Some cfg' ->
     Server.clients (Threads.srv cfg') <> Server.clients (Threads.srv cfg) ->
     Threads.lock cfg = None /\ Threads.lock cfg' = None).
Proof.
  intros Hinit [schedule Hrun].
  destruct (initial_inv cfg0 Hinit) as [Hlock0 Hround0].
  destruct (run_preserves schedule cfg0 cfg Hlock0 Hround0 Hrun) as [Hlock Hround].
  split; [exact Hlock|]. split; [|split; [exact Hround|]].
  { intros i j Hi Hj. apply Hlock in Hi. apply Hlock in Hj. congruence. }
  split; [|split; [|split]].
  - intros i msg sender Hp. unfold Threads.step_thread. rewrite Hp.
    eexists. split; [reflexivity|]. split; reflexivity.
  - intros i f v fmt msg sender Hp. unfold Threads.step_thread. rewrite Hp.
    eexists. split; [reflexivity|]. split; reflexivity.
  - intros i msg sender Hp. unfold Threads.step_thread. rewrite Hp.
    destruct (Threads.lock cfg); split; intros Hs; try reflexivity; try discriminate;
      try (destruct Hs; discriminate); eexists; reflexivity.
  - intros i cfg' Hstep Hchanged. unfold Threads.step_thread in Hstep.
    destruct (Threads.threads cfg !! i) as [p|]; [|discriminate].
    destruct p as [msg sender|f v fmt msg sender|msg sender|raw sender todo|c|c| |e];
      try discriminate.
    + injection Hstep as <-. contradiction.
    + injection Hstep as <-. simpl in Hchanged. rewrite assign_clients in Hchanged.
      contradiction.
    + destruct (Threads.lock cfg); [discriminate|].
      injection Hstep as <-. contradiction.
    + destruct todo; injection Hstep as <-; contradiction.
    + destruct (Threads.lock cfg); [discriminate|].
      injection Hstep as <-. split; reflexivity.
    + destruct (Threads.lock cfg); [discriminate|].
      injection Hstep as <-. split; reflexivity.
Qed.

(** The two threads of [race_start], run to their ends by
    [race_schedule]: one thread in its round at a time. *)
Lemma broadcast_rounds_exclusive_witness :
  exists cfg,
    @Threads.run demo_codec race_schedule race_start = Some cfg /\
    @Threads.lock_inv cfg /\ Threads.lock cfg = None.
Proof.
  set (cfg := default race_start (@Threads.run demo_codec race_schedule race_start)).
  assert (Hrun : @Threads.run demo_codec race_schedule race_start = Some cfg)
    by (vm_compute; reflexivity).
  exists cfg. split; [exact Hrun|].
  destruct (@broadcast_rounds_exclusive demo_codec race_start cfg) as [Hlock _].
  - split; [reflexivity|]. intros i (raw & sender & todo & Hs).
    destruct i as [|[|i]]; discriminate.
  - exists race_schedule. exact Hrun.
  - split; [exact Hlock | reflexivity].
Defined.

(** C8 as stated fails: the comparison and the assignment run outside
    the lock.  Peers 1 and 2 pause at about the same time; both threads
    compare while the group still plays, so both accept, and two rounds go
    out (peer 3 is told twice, and each of the two is told of the other's
    pause), where one event handled after the other would have made one
    round.  After its comparison the first thread is past its decision and
    holds no lock. *)
Lemma race_between_two_pause_events :
  ~ @Threads.handled_under_lock demo_codec race_start /\
  exists cfg,
    @Threads.run demo_codec race_schedule race_start = Some cfg /\
    Threads.quiescent cfg = true /\
    Threads.sent cfg =
    [(0, 2, "pause" +:+ String newline ""); (0, 3, "pause" +:+ String newline "");
     (1, 3, "pause" +:+ String newline ""); (1, 1, "pause" +:+ String newline "")] /\
    recipients (sends (@Threads.serial demo_codec (fun _ => true)
               [(JObj (pause_msg true "A"), 1); (JObj (pause_msg true "B"), 2)]
               demo_relay).2) = [2; 3] /\
    recipients (sends (@Threads.serial demo_codec (fun _ => true)
               [(JObj (pause_msg true "B"), 2); (JObj (pause_msg true "A"), 1)]
               demo_relay).2) = [3; 1].
Proof.
  split.
  - intros Hc.
    set (cfg := default race_start (@Threads.run demo_codec [0] race_start)).
    assert (Hrun : @Threads.run demo_codec [0] race_start = Some cfg)
      by (vm_compute; reflexivity).
    specialize (Hc cfg 0 (ex_intro _ [0] Hrun) I). discriminate Hc.
  - eexists. split; [vm_compute; reflexivity|].
    repeat split; vm_compute; reflexivity.
Qed.

(** * More properties *)

(** ** Line framing *)

Lemma append_cons c (s t : string) : String c s +:+ t = String c (s +:+ t).
Proof. reflexivity. Qed.

Lemma append_nil_r (s : string) : s +:+ "" = s.
Proof. induction s as [|c s IH]; [reflexivity|]. rewrite append_cons, IH. reflexivity. Qed.

Lemma append_assoc (s t u : string) : (s +:+ t) +:+ u = s +:+ (t +:+ u).
Proof.
  induction s as [|c s IH]; [reflexivity|]. rewrite !append_cons, IH. reflexivity.
Qed.

Lemma split_lines_from_app a : forall acc b,
  split_lines_from acc (a +:+ b) =
  match split_lines_from acc a with
  | (l1, r1) =>
      match split_lines_from r1 b with
      | (l2, r2) => (l1 ++ l2, r2)
      end
  end.
Proof.
  induction a as [|c a IH]; intros acc b.
  - change ("" +:+ b) with b. simpl. destruct (split_lines_from acc b). reflexivity.
  - rewrite append_cons. simpl. destruct (Ascii.eqb c newline).
    + rewrite IH. destruct (split_lines_from "" a) as [l1 r1].
      destruct (split_lines_from r1 b) as [l2 r2]. reflexivity.
    + apply IH.
Qed.

Lemma split_lines_from_no_newline r : forall acc,
  no_newline r = true -> split_lines_from acc r = ([], acc +:+ r).
Proof.
  induction r as [|c r IH]; intros acc Hr; simpl in *.
  - rewrite append_nil_r. reflexivity.
  - apply andb_true_iff in Hr as [Hc Hr]. apply negb_true_iff in Hc.
    rewrite Hc, (IH _ Hr), append_assoc. reflexivity.
Qed.



Section framing_facts.
Context {S E : Type}.
Variable on_line : string -> M S E unit.




Lemma recv_loop_one buffer data s :
  recv_loop on_line buffer [data] s =
  if String.eqb data "" then (s, [], inr tt)
  else match on_data on_line buffer data s with
       | (s1, o1, inl e) => (s1, o1, inl e)
       | (s1, o1, inr _) => (s1, o1, inr tt)
       end.
Proof.
  simpl. destruct (String.eqb data ""); [reflexivity|].
  unfold mbind, mret, M_bind, M_ret, bind, ret.
  destruct (on_data on_line buffer data s) as [[s1 o1] [e|b]]; [reflexivity|].
  rewrite app_nil_r. reflexivity.
Qed.

End framing_facts.



Lemma split_lines_from_line line : forall acc t,
  no_newline line = true ->
  split_lines_from acc (line +:+ String newline t) =
  match split_lines_from "" t with
  | (lines, rest) => ((acc +:+ line) :: lines, rest)
  end.
Proof.
  intros acc t Hline.
  rewrite split_lines_from_app, (split_lines_from_no_newline line acc Hline).
  simpl. destruct (split_lines_from "" t) as [lines rest]. reflexivity.
Qed.

(** Splitting undoes joining: the lines come back as they were sent, and
    a tail that has no line break yet stays behind as the buffer. *)
Lemma split_join_lines lines : forall rest,
  Forall (fun line => no_newline line = true) lines ->
  no_newline rest = true ->
  split_lines (join_lines lines +:+ rest) = (lines, rest).
Proof.
  unfold split_lines. induction lines as [|line lines IH]; intros rest Hl Hr.
  - change (join_lines [] +:+ rest) with rest.
    rewrite (split_lines_from_no_newline rest "" Hr). reflexivity.
  - apply Forall_cons in Hl as [Hline Hl]. cbn [join_lines].
    rewrite append_assoc, append_cons, (split_lines_from_line line "" _ Hline).
    rewrite (IH rest Hl Hr). reflexivity.
Qed.



(** ** The relay on events that are not as the protocol has them *)

Lemma py_eq_str v k : py_eq v (JStr k) = true <-> v = JStr k.
Proof.
  destruct v; simpl; split; try discriminate; try congruence.
  - intros Heq. apply String.eqb_eq in Heq. congruence.
  - intros [= ->]. apply String.eqb_refl.
Qed.

Lemma py_eq_str_false v k : v <> JStr k -> py_eq v (JStr k) = false.
Proof.
  intros Hne. destruct (py_eq v (JStr k)) eqn:Heq; [|reflexivity].
  apply py_eq_str in Heq. contradiction.
Qed.

Lemma default_get_ne key d v :
  dict_get key d <> Some v -> v <> JNull -> default JNull (dict_get key d) <> v.
Proof.
  intros Hget Hv. destruct (dict_get key d) as [w|]; simpl; congruence.
Qed.

(** X3.  An event whose kind is not "pause", "seek" or "time" (or that
    has no kind at all) is ignored in silence: the state stays, nothing is
    written to any peer, nothing is logged even in debug mode, and nothing
    is raised. *)
Theorem unknown_event_ignored `{Codec} (net : conn -> bool) (d : dict)
    (sender : conn) (s : Server.SyncServer) :
  dict_get "event" d <> Some (JStr "pause") ->
  dict_get "event" d <> Some (JStr "seek") ->
  dict_get "event" d <> Some (JStr "time") ->
  Server._handle_message net (JObj d) sender s = (s, [], inr tt).
Proof.
  intros Hp Hs Ht. unfold Server._handle_message, msg_get.
  unfold mbind, mret, M_bind, M_ret, bind, ret. simpl.
  rewrite !py_eq_str_false by (apply default_get_ne; [assumption | discriminate]).
  reflexivity.
Qed.

Lemma unknown_event_ignored_witness :
  @Server._handle_message demo_codec (fun _ => true)
    (JObj [("event", JStr "property-change"); ("name", JStr "pause")]) 1 demo_relay
  = (demo_relay, [], inr tt).
Proof.
  apply (@unknown_event_ignored demo_codec (fun _ => true)
           [("event", JStr "property-change"); ("name", JStr "pause")] 1 demo_relay);
    discriminate.
Defined.

Lemma decide_kind s d kind :
  dict_get "event" d = Some (JStr kind) ->
  kind = "seek" \/ kind = "time" ->
  Threads.decide s (JObj d) =
  match default JNull (dict_get "raw_time" d) with
  | JNull => Threads.Skip
  | new_time =>
      match Server.drift_of new_time (Server.current_time s) with
      | inl e => Threads.Crash e
      | inr drift =>
          if py_gt drift (Server.time_tolerance s) then
            Threads.Accept Threads.Time new_time
              (match format_2f new_time with
               | inl e => inl e
               | inr _ => format_2f (num_json drift)
               end)
          else
            match format_2f (num_json drift) with
            | inl e => Threads.Crash e
            | inr _ => Threads.Skip
            end
      end
  end.
Proof.
  intros He Hk. unfold Threads.decide. rewrite He.
  destruct Hk as [-> | ->]; simpl;
    destruct (default JNull (dict_get "raw_time" d)); reflexivity.
Qed.



(** X5.  A "time" or "seek" event whose [raw_time] is a string, a list or
    an object raises [TypeError] at the subtraction, whatever the canonical
    position is: the state stays and nothing is written. *)
Theorem non_numeric_time_raises `{Codec} (net : conn -> bool) (d : dict)
    (kind : string) (v : json) (sender : conn) (s : Server.SyncServer) :
  dict_get "event" d = Some (JStr kind) ->
  kind = "seek" \/ kind = "time" ->
  dict_get "raw_time" d = Some v ->
  v <> JNull ->
  as_num v = None ->
  summary (Server._handle_message net (JObj d) sender s) = (s, [], inl TypeError).
Proof.
  intros He Hk Hv Hnull Hnum. rewrite handle_decide, (decide_kind s d kind He Hk), Hv.
  destruct v; try discriminate Hnum; try contradiction; reflexivity.
Qed.

Lemma non_numeric_time_raises_witness :
  summary (@Server._handle_message demo_codec (fun _ => true)
             (JObj [("event", JStr "time"); ("raw_time", JStr "103.5")]) 1 demo_relay)
  = (demo_relay, [], inl TypeError).
Proof.
  apply (@non_numeric_time_raises demo_codec (fun _ => true)
           [("event", JStr "time"); ("raw_time", JStr "103.5")] "time"
           (JStr "103.5") 1 demo_relay eq_refl (or_intror eq_refl) eq_refl);
    [discriminate | reflexivity].
Defined.

(** X6.  A "pause" event that has no [paused] is taken as carrying
    [None]: met in a state whose canonical value is a Boolean it is accepted,
    the canonical value becomes [None], and the event is written as it came
    to every registered peer but the sender.  After it every pause event
    with a Boolean value is accepted. *)
Theorem pause_without_value_accepted `{Codec} (net : conn -> bool) (d : dict)
    (sender : conn) (s : Server.SyncServer) (cur : bool) :
  dict_get "event" d = Some (JStr "pause") ->
  dict_get "paused" d = None ->
  Server.current_pause s = JBool cur ->
  summary (Server._handle_message net (JObj d) sender s) =
    (Server.set_current_pause JNull s,
     round net (JObj d) sender (elements (Server.clients s)), inr tt) /\
  (forall net' d' sender' (b : bool),
     dict_get "event" d' = Some (JStr "pause") ->
     dict_get "paused" d' = Some (JBool b) ->
     state_of (Server._handle_message net' (JObj d') sender'
                 (Server.set_current_pause JNull s)) =
     Server.set_current_pause (JBool b) s).
Proof.
  intros He Hp Hc. split.
  - rewrite handle_decide. unfold Threads.decide. rewrite He, Hp, Hc. reflexivity.
  - intros net' d' sender' b He' Hp'.
    pose proof (handle_decide net' (JObj d') sender'
                  (Server.set_current_pause JNull s)) as Hd.
    rewrite (decide_pause _ d' _ He' Hp') in Hd. simpl in Hd.
    apply summary_inv in Hd. destruct Hd as (-> & _ & _).
    destruct b; reflexivity.
Qed.

Lemma pause_without_value_accepted_witness :
  summary (@Server._handle_message demo_codec (fun _ => true)
             (JObj [("event", JStr "pause")]) 1 demo_relay) =
  (Server.set_current_pause JNull demo_relay,
   @round demo_codec (fun _ => true) (JObj [("event", JStr "pause")]) 1
     (elements (Server.clients demo_relay)), inr tt).
Proof.
  apply (@pause_without_value_accepted demo_codec (fun _ => true)
           [("event", JStr "pause")] 1 demo_relay false eq_refl eq_refl eq_refl).
Defined.

(** X7.  An accepted position that is an int too large for a float
    updates the canonical position and is then lost: with an int as the
    canonical position the drift test passes and the assignment is made, the
    formatting of the log line raises [OverflowError], and no peer is
    written to. *)
Theorem overflowing_time_updates_without_broadcast `{Codec} (net : conn -> bool)
    (d : dict) (kind : string) (z p : Z) (sender : conn) (s : Server.SyncServer) :
  dict_get "event" d = Some (JStr kind) ->
  kind = "seek" \/ kind = "time" ->
  dict_get "raw_time" d = Some (JInt z) ->
  Server.current_time s = JInt p ->
  int_to_float z = inl OverflowError ->
  py_gt (NInt (Z.abs (z - p))) (Server.time_tolerance s) = true ->
  summary (Server._handle_message net (JObj d) sender s) =
    (Server.set_current_time (JInt z) s, [], inl OverflowError).
Proof.
  intros He Hk Hv Hcur Hbig Hgt.
  rewrite handle_decide, (decide_kind s d kind He Hk), Hv. simpl.
  unfold Server.drift_of. rewrite Hcur. simpl. rewrite Hgt, Hbig. reflexivity.
Qed.

Lemma overflowing_time_updates_without_broadcast_witness :
  summary (@Server._handle_message demo_codec (fun _ => true)
             (JObj [("event", JStr "time"); ("raw_time", JInt (2 ^ 1024))]) 1
             (Server.set_current_time (JInt 100) demo_relay)) =
  (Server.set_current_time (JInt (2 ^ 1024)) demo_relay, [], inl OverflowError).
Proof.
  apply (@overflowing_time_updates_without_broadcast demo_codec (fun _ => true)
           [("event", JStr "time"); ("raw_time", JInt (2 ^ 1024))] "time"
           (2 ^ 1024) 100 1 (Server.set_current_time (JInt 100) demo_relay)
           eq_refl (or_intror eq_refl) eq_refl eq_refl);
    vm_compute; reflexivity.
Defined.

(** ** A connection's handler, whatever its stream *)

(** X8.  The thread of a connection never lets an exception out and
    always lets go of the connection: whatever the stream holds and
    wherever handling it raises, the connection is deregistered, the other
    peers stay registered, the socket is closed, and an exception that ended
    the handler is the last thing printed. *)
Theorem handler_always_releases `{Codec} (net : conn -> bool) (c : conn)
    (chunks : list string) (s : Server.SyncServer) :
  let r := Server._handle_errors (Server.handle_client net c chunks) s in
  status_of r = inr tt /\
  Server.clients (state_of r) = Server.clients s ∖ {[c]} /\
  Server.Close c ∈ outputs_of r /\
  (forall e, status_of (Server.handle_client net c chunks s) = inl e ->
     last (outputs_of r) = Some (Server.Print (Server.LogException e))).
Proof.
  intros r. subst r. unfold Server._handle_errors, try_except, emit.
  destruct (handle_client_deregisters net c chunks s) as [Hcl Hclose].
  destruct (Server.handle_client net c chunks s) as [[s1 o1] [e|[]]];
    unfold state_of, outputs_of, status_of in *; simpl in *.
  - split; [reflexivity|]. split; [exact Hcl|]. split.
    + apply elem_of_app. left. exact Hclose.
    + intros e' [= <-]. apply last_snoc.
  - split; [reflexivity|]. split; [exact Hcl|]. split; [exact Hclose|].
    intros e' He'. discriminate.
Qed.

Lemma prints_app o1 o2 : prints (o1 ++ o2) = prints o1 ++ prints o2.
Proof.
  induction o1 as [|o o1 IH]; [reflexivity|].
  destruct o; simpl; rewrite IH; reflexivity.
Qed.

Section quiet_facts.
Context `{Codec}.
Variable net : conn -> bool.

Lemma log_off l s : Server.debug s = false -> Server._log l s = (s, [], inr tt).
Proof.
  intros Hd. unfold Server._log, mbind, mret, M_bind, M_ret, bind, ret, get.
  rewrite Hd. reflexivity.
Qed.

Lemma broadcast_quiet message sender_conn s :
  Server.debug s = false ->
  prints (outputs_of (Server.broadcast_to_others net message sender_conn s)) = [].
Proof.
  intros Hd. unfold Server.broadcast_to_others.
  rewrite (bind_ok _ _ s s [] s) by reflexivity. unfold outputs_of at 1. simpl.
  apply (for_each_outputs (fun out => prints out = []) (fun s' => s' = s));
    [reflexivity | | | reflexivity].
  - intros a b Ha Hb. rewrite prints_app, Ha, Hb. reflexivity.
  - intros client s' ->.
    destruct (negb (Nat.eqb client sender_conn)); [|split; reflexivity].
    destruct (net client); [split; reflexivity|].
    unfold mbind, M_bind, bind, emit. rewrite (log_off _ s Hd). split; reflexivity.
Qed.

Lemma handle_message_quiet msg sender s :
  Server.debug s = false ->
  Server.debug (state_of (Server._handle_message net msg sender s)) = false /\
  prints (outputs_of (Server._handle_message net msg sender s)) = [].
Proof.
  intros Hd. unfold Server._handle_message.
  destruct msg as [| | | | | |d]; try (split; [exact Hd | reflexivity]).
  unfold msg_get.
  unfold mbind, mret, M_bind, M_ret, bind, ret, get, put, lift. simpl.
  destruct (py_eq (default JNull (dict_get "event" d)) (JStr "pause")).
  - destruct (py_ne _ _); [|split; [exact Hd | reflexivity]].
    rewrite log_off by exact Hd.
    pose proof (broadcast_quiet (JObj d) sender
                  (Server.set_current_pause (default JNull (dict_get "paused" d)) s) Hd)
      as Hq.
    destruct (broadcast_spec net (JObj d) sender
                (Server.set_current_pause (default JNull (dict_get "paused" d)) s))
      as (out & Hrun & _).
    rewrite Hrun in Hq |- *. unfold state_of, outputs_of in *. simpl in *.
    split; [exact Hd | exact Hq].
  - destruct (py_eq _ (JStr "seek") || py_eq _ (JStr "time"));
      [|split; [exact Hd | reflexivity]].
    destruct (default JNull (dict_get "raw_time" d)) eqn:Hv;
      try (split; [exact Hd | reflexivity]).
    all: destruct (Server.drift_of _ (Server.current_time s)) as [e|drift];
      [split; [exact Hd | reflexivity]|].
    all: destruct (py_gt drift (Server.time_tolerance s)).
    all: simpl.
    all: repeat match goal with
           | |- context [match format_2f ?v with _ => _ end] =>
               destruct (format_2f v) as [?|[]]
           | |- context [match int_to_float ?z with _ => _ end] =>
               destruct (int_to_float z)
           end; try (split; [exact Hd | reflexivity]).
    all: rewrite log_off by exact Hd; try (split; [exact Hd | reflexivity]).
    all: match goal with
         | |- context [Server.broadcast_to_others net ?m ?c ?s'] =>
             pose proof (broadcast_quiet m c s' Hd) as Hq;
             destruct (broadcast_spec net m c s') as (out & Hrun & _);
             rewrite Hrun in Hq |- *
         end; unfold state_of, outputs_of in *; simpl in *;
         (split; [exact Hd | exact Hq]).
Qed.

Lemma on_line_quiet line c s :
  Server.debug s = false ->
  Server.debug (state_of (Server.on_line net line c s)) = false /\
  prints (outputs_of (Server.on_line net line c s)) = [].
Proof.
  intros Hd. unfold Server.on_line.
  destruct (is_blank line); [split; [exact Hd | reflexivity]|].
  destruct (json_loads line) as [msg|].
  - apply handle_message_quiet. exact Hd.
  - rewrite log_off by exact Hd. split; [exact Hd | reflexivity].
Qed.
End quiet_facts.

(** X9.  With debug off the handler of a connection prints its connect
    line and its disconnect line and, when an exception ended it, that
    exception: nothing of what the stream holds or of what is done with it
    is printed. *)
Theorem quiet_without_debug `{Codec} (net : conn -> bool) (c : conn)
    (chunks : list string) (s : Server.SyncServer) :
  Server.debug s = false ->
  prints (outputs_of (Server._handle_errors (Server.handle_client net c chunks) s)) =
  [Server.LogConnect c; Server.LogDisconnect c] ++
  match status_of (Server.handle_client net c chunks s) with
  | inl e => [Server.LogException e]
  | inr _ => []
  end.
Proof.
  intros Hd.
  assert (Hloop : forall s', Server.debug s' = false ->
    prints (outputs_of
      (recv_loop (fun line => Server.on_line net line c) "" chunks s')) = []).
  { intros s' Hd'.
    apply (recv_loop_outputs (fun out => prints out = [])
             (fun s0 => Server.debug s0 = false)); [reflexivity | | | exact Hd'].
    - intros a b Ha Hb. rewrite prints_app, Ha, Hb. reflexivity.
    - intros line s0 Hs0. apply on_line_quiet. exact Hs0. }
  specialize (Hloop (Server.set_clients ({[c]} ∪ Server.clients s) s) Hd).
  unfold Server._handle_errors, try_except, Server.handle_client.
  unfold mbind, M_bind, bind, emit, get, put, finally. simpl.
  destruct (recv_loop _ "" chunks _) as [[s1 o1] [e|[]]];
    unfold outputs_of, status_of in *; simpl in *;
    rewrite ?prints_app, ?Hloop; reflexivity.
Qed.

Lemma quiet_without_debug_witness :
  prints (outputs_of
    (Server._handle_errors
       (@Server.handle_client demo_codec (fun _ => true) 1
          [malformed_chunk; pause_line +:+ String newline ""])
       (Server.set_clients {[2; 3]} (Server.__init__ (NFloat 2.5%float) false)))) =
  [Server.LogConnect 1; Server.LogDisconnect 1].
Proof.
  refine (eq_trans
    (@quiet_without_debug demo_codec (fun _ => true) 1
       [malformed_chunk; pause_line +:+ String newline ""]
       (Server.set_clients {[2; 3]} (Server.__init__ (NFloat 2.5%float) false))
       eq_refl) _).
  vm_compute. reflexivity.
Defined.

(** ** The bridge's two loops keep to their directions *)

Section direction_facts.
Context `{Codec}.

Ltac use_client_log' :=
  match goal with
  | |- context [Client._log ?l ?c] =>
      let out := fresh "out" in
      let Hlog := fresh "Hlog" in
      let Hm := fresh "Hm" in
      let Hsv := fresh "Hsv" in
      destruct (client_log l c) as (out & Hlog & Hm & Hsv); rewrite Hlog
  end.

Lemma listen_line_silent line c :
  state_of (Client.listen_line line c) = c /\
  server_lines (outputs_of (Client.listen_line line c)) = [].
Proof.
  unfold Client.listen_line.
  destruct (is_blank line); [split; reflexivity|].
  destruct (json_loads line) as [msg|]; [|split; reflexivity].
  destruct msg as [| | | | | |d]; try (split; reflexivity).
  unfold msg_get, msg_index, mbind, mret, M_bind, M_ret, bind, ret, get, lift.
  simpl.
  destruct (py_eq (default JNull (dict_get "source" d)) (JStr (Client.client_id c)));
    [split; reflexivity|].
  destruct (py_eq (default JNull (dict_get "event" d)) (JStr "pause")).
  - destruct (dict_get "paused" d) as [v|]; [|split; reflexivity].
    use_client_log'. unfold state_of, outputs_of. simpl.
    rewrite server_lines_app, Hsv. split; reflexivity.
  - destruct (py_eq _ (JStr "seek") || py_eq _ (JStr "time")); [|split; reflexivity].
    destruct (dict_get "raw_time" d) as [v|]; [|split; reflexivity].
    destruct (format_2f v) as [e|[]]; [split; reflexivity|].
    use_client_log'. unfold state_of, outputs_of. simpl.
    rewrite server_lines_app, Hsv. split; reflexivity.
Qed.

Lemma observe_line_player_silent line c :
  state_of (Client.observe_line line c) = c /\
  mpv_lines (outputs_of (Client.observe_line line c)) = [].
Proof.
  unfold Client.observe_line.
  destruct (is_blank line); [split; reflexivity|].
  destruct (json_loads line) as [msg|]; [|split; reflexivity].
  destruct msg as [| | | | | |d]; try (split; reflexivity).
  unfold msg_get, mbind, mret, M_bind, M_ret, bind, ret, lift. simpl.
  destruct (py_eq (default JNull (dict_get "event" d)) (JStr "property-change")).
  - destruct (py_eq (default JNull (dict_get "name" d)) (JStr "pause")).
    + use_client_log'. unfold state_of, outputs_of. simpl.
      rewrite mpv_lines_app, Hm. split; reflexivity.
    + destruct (py_eq (default JNull (dict_get "name" d)) (JStr "time-pos"));
        [|split; reflexivity].
      destruct (default JNull (dict_get "data" d)) eqn:Hv; simpl.
      all: repeat match goal with
             | |- context [match int_to_float ?z with _ => _ end] =>
                 destruct (int_to_float z)
             end.
      all: try (split; reflexivity).
      all: use_client_log'; unfold state_of, outputs_of; simpl;
        rewrite ?app_nil_r, ?mpv_lines_app, ?Hm; split; reflexivity.
  - destruct (py_eq (default JNull (dict_get "event" d)) (JStr "seek"));
      [|split; reflexivity].
    use_client_log'. unfold state_of, outputs_of. simpl.
    rewrite ?app_nil_r, ?mpv_lines_app, ?Hm. split; reflexivity.
Qed.
End direction_facts.

(** X10.  The loop that listens to the relay never writes to the relay:
    whatever arrives, and however it ends, [_listen_server] sends no line
    back and leaves the bridge's identity as it is. *)
Theorem listen_never_writes_to_relay `{Codec} (chunks : list string)
    (c : Client.SyncClient) :
  state_of (Client._listen_server chunks c) = c /\
  server_lines (outputs_of (Client._listen_server chunks c)) = [].
Proof.
  unfold Client._listen_server.
  apply (recv_loop_outputs (fun out => server_lines out = []) (fun s => s = c));
    [reflexivity | | | reflexivity].
  - intros a b Ha Hb. rewrite server_lines_app, Ha, Hb. reflexivity.
  - intros line s ->. apply listen_line_silent.
Qed.

(** X11.  The loop that observes the player writes to the player its two
    subscriptions, to [pause] and to [time-pos], and nothing else, whatever
    the player sends. *)
Theorem observe_only_subscribes `{Codec} (chunks : list string)
    (c : Client.SyncClient) :
  mpv_lines (outputs_of (Client._observe_mpv chunks c)) =
  [json_dumps (JObj [("command",
      JArr [JStr "observe_property"; JInt 1; JStr "pause"])]) +:+ String newline "";
   json_dumps (JObj [("command",
      JArr [JStr "observe_property"; JInt 2; JStr "time-pos"])]) +:+ String newline ""].
Proof.
  assert (Hloop :
    mpv_lines (outputs_of (recv_loop Client.observe_line "" chunks c)) = []).
  { apply (recv_loop_outputs (fun out => mpv_lines out = []) (fun s => s = c));
      [reflexivity | | | reflexivity].
    - intros a b Ha Hb. rewrite mpv_lines_app, Ha, Hb. reflexivity.
    - intros line s ->. apply observe_line_player_silent. }
  unfold Client._observe_mpv, Client._send_to_mpv.
  unfold mbind, M_bind, bind, emit.
  destruct (recv_loop Client.observe_line "" chunks c) as [[s1 o1] r1].
  unfold outputs_of in *. simpl in *. rewrite Hloop. reflexivity.
Qed.

(** ** What the bridge applies and what it forwards *)

Section apply_facts.
Context `{Codec}.

(** A pause from another peer becomes one [set_property pause] command
    to the player. *)
Lemma listen_line_applies_pause line d (v : json) c :
  is_blank line = false ->
  json_loads line = Some (JObj d) ->
  dict_get "event" d = Some (JStr "pause") ->
  dict_get "paused" d = Some v ->
  py_eq (default JNull (dict_get "source" d)) (JStr (Client.client_id c)) = false ->
  state_of (Client.listen_line line c) = c /\
  status_of (Client.listen_line line c) = inr tt /\
  mpv_lines (outputs_of (Client.listen_line line c)) =
  [json_dumps (JObj [("command", JArr [JStr "set_property"; JStr "pause"; v])])
   +:+ String newline ""].
Proof.
  intros Hb Hl He Hv Hsrc. unfold Client.listen_line. rewrite Hb, Hl.
  unfold msg_get, msg_index, mbind, mret, M_bind, M_ret, bind, ret, get, lift.
  simpl. rewrite Hsrc, He, Hv. simpl.
  destruct (client_log (Client.LogApplyPause v) c) as (out & Hlog & Hm & _).
  rewrite Hlog. unfold state_of, status_of, outputs_of. simpl.
  rewrite mpv_lines_app, Hm. auto.
Qed.
End apply_facts.

(** X12.  A received event of another peer that lacks its value ends the
    listening loop: a "pause" without [paused], or a "seek" or "time" without
    [raw_time], raises [KeyError] before anything is logged or sent to the
    player. *)
Theorem listen_missing_value_raises `{Codec} (line : string) (d : dict)
    (c : Client.SyncClient) :
  is_blank line = false ->
  json_loads line = Some (JObj d) ->
  py_eq (default JNull (dict_get "source" d)) (JStr (Client.client_id c)) = false ->
  (dict_get "event" d = Some (JStr "pause") /\ dict_get "paused" d = None) \/
  ((dict_get "event" d = Some (JStr "seek") \/ dict_get "event" d = Some (JStr "time"))
   /\ dict_get "raw_time" d = None) ->
  Client.listen_line line c = (c, [], inl KeyError).
Proof.
  intros Hb Hl Hsrc Hcase. unfold Client.listen_line. rewrite Hb, Hl.
  unfold msg_get, msg_index, mbind, mret, M_bind, M_ret, bind, ret, get, lift.
  simpl. rewrite Hsrc.
  destruct Hcase as [[He Hv] | [[He | He] Hv]]; rewrite He, Hv; reflexivity.
Qed.

Lemma listen_missing_value_raises_witness :
  @Client.listen_line mpv_codec "bare-pause" (Client.mkSyncClient "B" true) =
  (Client.mkSyncClient "B" true, [], inl KeyError).
Proof.
  apply (@listen_missing_value_raises mpv_codec "bare-pause"
           [("event", JStr "pause"); ("source", JStr "A")]
           (Client.mkSyncClient "B" true) eq_refl eq_refl eq_refl).
  left. split; reflexivity.
Defined.

Lemma default_get_str key d k :
  default JNull (dict_get key d) = JStr k -> dict_get key d = Some (JStr k).
Proof. destruct (dict_get key d) as [v|]; simpl; [congruence | discriminate]. Qed.

(** X13.  The observing loop forwards to the relay nothing but changes
    of the player's [pause] and of its [time-pos]: a line of the player that
    makes [observe_line] write to the relay is a [property-change] named
    "pause", or one named "time-pos" whose [data] is not [null].  Seek
    notifications, other properties, and "no position yet" are not
    forwarded. *)
Theorem observe_forwards_only_changes `{Codec} (line : string)
    (c : Client.SyncClient) :
  server_lines (outputs_of (Client.observe_line line c)) <> [] ->
  exists d,
    json_loads line = Some (JObj d) /\
    dict_get "event" d = Some (JStr "property-change") /\
    (dict_get "name" d = Some (JStr "pause") \/
     (dict_get "name" d = Some (JStr "time-pos") /\
      exists v, dict_get "data" d = Some v /\ v <> JNull)).
Proof.
  unfold Client.observe_line.
  destruct (is_blank line); [intros Hn; contradiction|].
  destruct (json_loads line) as [msg|]; [|intros Hn; contradiction].
  destruct msg as [| | | | | |d]; try (intros Hn; contradiction).
  unfold msg_get, mbind, mret, M_bind, M_ret, bind, ret, lift. simpl.
  destruct (py_eq (default JNull (dict_get "event" d)) (JStr "property-change"))
    eqn:He.
  - apply py_eq_str, default_get_str in He.
    destruct (py_eq (default JNull (dict_get "name" d)) (JStr "pause")) eqn:Hp.
    + apply py_eq_str, default_get_str in Hp. intros _. exists d. auto.
    + destruct (py_eq (default JNull (dict_get "name" d)) (JStr "time-pos")) eqn:Ht;
        [|intros Hn; contradiction].
      apply py_eq_str, default_get_str in Ht.
      destruct (dict_get "data" d) as [v|] eqn:Hv; simpl.
      * assert (Hfwd : v <> JNull -> exists d0,
          Some (JObj d) = Some (JObj d0) /\
          dict_get "event" d0 = Some (JStr "property-change") /\
          (dict_get "name" d0 = Some (JStr "pause") \/
           (dict_get "name" d0 = Some (JStr "time-pos") /\
            exists v0, dict_get "data" d0 = Some v0 /\ v0 <> JNull))).
        { intros Hnull. exists d. split; [reflexivity|]. split; [exact He|].
          right. split; [exact Ht|]. exists v. auto. }
        destruct v; try (intros _; apply Hfwd; discriminate).
        destruct (client_log Client.LogMpvTimeNone c) as (out & Hlog & _ & Hsv).
        rewrite Hlog. unfold outputs_of. simpl. rewrite ?app_nil_r, Hsv.
        intros Hn. contradiction.
      * destruct (client_log Client.LogMpvTimeNone c) as (out & Hlog & _ & Hsv).
        rewrite Hlog. unfold outputs_of. simpl. rewrite ?app_nil_r, Hsv.
        intros Hn. contradiction.
  - destruct (py_eq (default JNull (dict_get "event" d)) (JStr "seek"));
      [|intros Hn; contradiction].
    destruct (client_log Client.LogMpvSeek c) as (out & Hlog & _ & Hsv).
    rewrite Hlog. unfold outputs_of. simpl. rewrite ?app_nil_r, Hsv.
    intros Hn. contradiction.
Qed.

Lemma observe_forwards_only_changes_witness :
  exists d,
    @json_loads mpv_codec "pause-change" = Some (JObj d) /\
    dict_get "event" d = Some (JStr "property-change") /\
    (dict_get "name" d = Some (JStr "pause") \/
     (dict_get "name" d = Some (JStr "time-pos") /\
      exists v, dict_get "data" d = Some v /\ v <> JNull)).
Proof.
  apply (@observe_forwards_only_changes mpv_codec "pause-change"
           (Client.mkSyncClient "A" false)).
  vm_compute. intros Hn. discriminate Hn.
Defined.

(** ** From one peer through the relay to another *)

(** X14.  A pause that the relay accepts reaches the player of every
    other peer: the line the relay writes to a registered peer whose write
    succeeds, read by that peer's [_listen_server], becomes one
    [set_property pause] command with the event's value, provided the codec
    decodes what it encoded, on one line, and the peer's identity is not the
    event's [source]. *)
Theorem relayed_pause_is_applied `{Codec} (net : conn -> bool)
    (s : Server.SyncServer) (d : dict) (sender peer : conn) (paused cur : bool)
    (c : Client.SyncClient) :
  dict_get "event" d = Some (JStr "pause") ->
  dict_get "paused" d = Some (JBool paused) ->
  Server.current_pause s = JBool cur ->
  paused <> cur ->
  peer ∈ Server.clients s -> peer <> sender -> net peer = true ->
  json_loads (json_dumps (JObj d)) = Some (JObj d) ->
  no_newline (json_dumps (JObj d)) = true ->
  is_blank (json_dumps (JObj d)) = false ->
  py_eq (default JNull (dict_get "source" d)) (JStr (Client.client_id c)) = false ->
  exists raw,
    (peer, raw, true) ∈ sends (outputs_of (Server._handle_message net (JObj d) sender s)) /\
    status_of (Client._listen_server [raw] c) = inr tt /\
    mpv_lines (outputs_of (Client._listen_server [raw] c)) =
    [json_dumps (JObj [("command",
        JArr [JStr "set_property"; JStr "pause"; JBool paused])])
     +:+ String newline ""].
Proof.
  intros He Hp Hc Hne Hpeer Hps Hnet Hrt Hnl Hbl Hsrc.
  exists (json_dumps (JObj d) +:+ String newline ""). split.
  - pose proof (handle_decide net (JObj d) sender s) as Hd.
    rewrite (decide_pause s d _ He Hp), Hc, py_ne_bool in Hd.
    assert (Hx : xorb paused cur = true)
      by (destruct paused, cur; try reflexivity; contradiction).
    rewrite Hx in Hd. apply summary_inv in Hd. destruct Hd as (_ & -> & _).
    unfold round. apply list_elem_of_fmap. exists peer.
    split; [rewrite Hnet; reflexivity|].
    apply list_elem_of_filter. split; [exact Hps|]. apply elem_of_elements, Hpeer.
  - destruct (listen_line_applies_pause (json_dumps (JObj d)) d (JBool paused) c
                Hbl Hrt He Hp Hsrc) as (Hst & Hok & Hout).
    unfold Client._listen_server. rewrite recv_loop_one.
    assert (Hraw : String.eqb (json_dumps (JObj d) +:+ String newline "") "" = false).
    { destruct (json_dumps (JObj d)); reflexivity. }
    rewrite Hraw. unfold on_data.
    change ("" +:+ (json_dumps (JObj d) +:+ String newline ""))
      with (join_lines [json_dumps (JObj d)]).
    rewrite <- (append_nil_r (join_lines [json_dumps (JObj d)])).
    rewrite (split_join_lines [json_dumps (JObj d)] "");
      [|repeat constructor; exact Hnl | reflexivity].
    cbn [for_each]. unfold mbind, mret, M_bind, M_ret, bind, ret.
    destruct (Client.listen_line (json_dumps (JObj d)) c) as [[s1 o1] r1].
    unfold state_of, status_of, outputs_of in *. simpl in *. subst r1.
    rewrite !app_nil_r. split; [reflexivity | exact Hout].
Qed.

(** Peer "A" on connection 1 pauses; the line written to connection 2 is
    applied by the bridge of peer "B". *)
Lemma relayed_pause_is_applied_witness :
  exists raw,
    (2, raw, true) ∈ sends (outputs_of
       (@Server._handle_message wire_codec (fun _ => true)
          (JObj (pause_msg true "A")) 1 demo_relay)) /\
    status_of (@Client._listen_server wire_codec [raw] (Client.mkSyncClient "B" false))
      = inr tt /\
    mpv_lines (outputs_of
       (@Client._listen_server wire_codec [raw] (Client.mkSyncClient "B" false))) =
    [@json_dumps wire_codec (JObj [("command",
        JArr [JStr "set_property"; JStr "pause"; JBool true])])
     +:+ String newline ""].
Proof.
  apply (@relayed_pause_is_applied wire_codec (fun _ => true) demo_relay
           (pause_msg true "A") 1 2 true false (Client.mkSyncClient "B" false));
    try reflexivity; discriminate.
Defined.

(** ** The relay's threads, whatever the interleaving *)

Lemma forallb_false_lookup {A} (f : A -> bool) (l : list A) :
  forallb f l = false -> exists i x, l !! i = Some x /\ f x = false.
Proof.
  induction l as [|x l IH]; simpl; [discriminate|].
  destruct (f x) eqn:Hx; simpl.
  - intros Hl. destruct (IH Hl) as (i & y & Hi & Hy). exists (Datatypes.S i), y. auto.
  - intros _. exists 0, x. auto.
Qed.

(** X15.  The relay's threads cannot block one another for good: from a
    start where nobody holds the lock, as long as some thread has not ended
    some thread can take its next step. *)
Theorem threads_never_deadlock `{Codec} (cfg0 cfg : Threads.config) :
  Threads.initial cfg0 ->
  Threads.reachable cfg0 cfg ->
  Threads.quiescent cfg = false ->
  exists i cfg', Threads.step_thread i cfg = Some cfg'.
Proof.
  intros Hinit [schedule Hrun] Hbusy.
  destruct (initial_inv cfg0 Hinit) as [Hlock0 Hround0].
  destruct (run_preserves schedule cfg0 cfg Hlock0 Hround0 Hrun) as [Hlock _].
  destruct (Threads.lock cfg) as [i|] eqn:Hl.
  - destruct (proj1 (Hlock i) Hl) as (raw & sender & todo & Hp).
    exists i. unfold Threads.step_thread. rewrite Hp.
    destruct todo; eexists; reflexivity.
  - apply forallb_false_lookup in Hbusy as (j & p & Hp & Hlive).
    exists j. unfold Threads.step_thread. rewrite Hp, ?Hl.
    destruct p as [msg sender|f v fmt msg sender|msg sender|raw sender todo|c|c| |e];
      try discriminate Hlive; try (eexists; reflexivity).
    destruct todo; eexists; reflexivity.
Qed.

Lemma threads_never_deadlock_witness :
  exists i cfg', @Threads.step_thread demo_codec i race_start = Some cfg'.
Proof.
  apply (@threads_never_deadlock demo_codec race_start race_start).
  - split; [reflexivity|]. intros i (raw & sender & todo & Hs).
    destruct i as [|[|i]]; discriminate.
  - exists []. reflexivity.
  - reflexivity.
Defined.

Section handlers_facts.
Context `{Codec}.
Variable s0 : Server.SyncServer.
Variable handlers : list (json * conn).

Lemma handlers_start_inv : handlers_inv s0 handlers (handlers_start s0 handlers).
Proof.
  unfold handlers_inv, handlers_start. simpl.
  split; [reflexivity|]. split; [apply length_map|]. split.
  - intros i h p Hh Hp. rewrite list_lookup_fmap, Hh in Hp.
    injection Hp as <-. simpl. destruct h; reflexivity.
  - intros i c raw Hin. apply elem_of_nil in Hin. contradiction.
Qed.

Lemma step_handlers_inv i cfg cfg' :
  Threads.round_inv cfg ->
  handlers_inv s0 handlers cfg ->
  Threads.step_thread i cfg = Some cfg' ->
  handlers_inv s0 handlers cfg'.
Proof.
  intros Hround (Hcl & Hlen & Hph & Hsent) Hstep.
  unfold Threads.step_thread in Hstep.
  destruct (Threads.threads cfg !! i) as [p|] eqn:Hp; [|discriminate].
  assert (Hh : exists h, handlers !! i = Some h).
  { apply lookup_lt_is_Some. rewrite <- Hlen. eapply lookup_lt_Some, Hp. }
  destruct Hh as [h Hh]. pose proof (Hph i h p Hh Hp) as Hmine.
  assert (Hkeep : forall p' (ts := <[i := p']> (Threads.threads cfg)),
    phase_of_handler h p' ->
    length ts = length handlers /\
    (forall j h' q, handlers !! j = Some h' -> ts !! j = Some q ->
                    phase_of_handler h' q)).
  { intros p' ts Hp'. subst ts. split; [rewrite length_insert; exact Hlen|].
    intros j h' q Hh' Hq. rewrite (threads_lookup_insert _ i j _ _ Hp) in Hq.
    destruct (decide (j = i)) as [->|Hne].
    - injection Hq as <-. congruence.
    - eapply Hph; eassumption. }
  destruct p as [msg sender|f v fmt msg sender|msg sender|raw sender todo|c|c| |e];
    simpl in Hmine; try contradiction; try discriminate.
  - injection Hstep as <-. unfold handlers_inv. simpl.
    split; [exact Hcl|].
    destruct (Hkeep (Threads.after_guard (Threads.decide (Threads.srv cfg) msg) msg sender))
      as [Hl' Hp'].
    { destruct (Threads.decide _ msg) as [|? ? ?|?]; simpl; auto. }
    split; [exact Hl'|]. split; [exact Hp' | exact Hsent].
  - injection Hstep as <-. unfold handlers_inv. simpl.
    split; [rewrite assign_clients; exact Hcl|].
    destruct (Hkeep (match fmt with
                     | inl e => Threads.Crashed e
                     | inr _ => Threads.Acquire msg sender
                     end)) as [Hl' Hp'].
    { destruct fmt; simpl; auto. }
    split; [exact Hl'|]. split; [exact Hp' | exact Hsent].
  - destruct (Threads.lock cfg); [discriminate|].
    injection Hstep as <-. unfold handlers_inv. simpl.
    split; [exact Hcl|].
    destruct (Hkeep (Threads.Sending (json_dumps msg +:+ String newline "") sender
                       (elements (Server.clients (Threads.srv cfg)))))
      as [Hl' Hp'].
    { simpl. subst h. auto. }
    split; [exact Hl'|]. split; [exact Hp' | exact Hsent].
  - destruct Hmine as [Hs Hraw].
    destruct todo as [|client todo]; injection Hstep as <-;
      unfold handlers_inv; simpl; (split; [exact Hcl|]).
    + destruct (Hkeep Threads.Finished I) as [Hl' Hp'].
      split; [exact Hl'|]. split; [exact Hp' | exact Hsent].
    + destruct (Hkeep (Threads.Sending raw sender todo)) as [Hl' Hp'];
        [simpl; auto|].
      split; [exact Hl'|]. split; [exact Hp'|].
      intros j c raw' Hin.
      destruct (negb (Nat.eqb client sender)) eqn:Hb; [|apply Hsent; exact Hin].
      apply elem_of_app in Hin as [Hin | Hin]; [apply Hsent; exact Hin|].
      apply list_elem_of_singleton in Hin. injection Hin as -> -> ->.
      exists h. split; [exact Hh|]. split.
      * rewrite Hs. apply negb_true_iff, Nat.eqb_neq in Hb. exact Hb.
      * split; [exact Hraw|]. rewrite <- Hcl.
        eapply Hround; [exact Hp|]. apply elem_of_cons. left. reflexivity.
Qed.

Lemma run_handlers_inv schedule : forall cfg cfg',
  Threads.lock_inv cfg -> Threads.round_inv cfg ->
  handlers_inv s0 handlers cfg ->
  Threads.run schedule cfg = Some cfg' ->
  handlers_inv s0 handlers cfg'.
Proof.
  induction schedule as [|i schedule IH]; intros cfg cfg' Hlock Hround Hinv Hrun;
    simpl in Hrun.
  - injection Hrun as <-. exact Hinv.
  - destruct (Threads.step_thread i cfg) as [cfg1|] eqn:Hstep; [|discriminate].
    destruct (step_preserves i cfg cfg1 Hlock Hround Hstep) as [Hlock1 Hround1].
    eapply (IH cfg1); eauto using step_handlers_inv.
Qed.
End handlers_facts.

(** X16.  Whatever the interleaving of the threads that handle a batch
    of events, every line written is the encoding of the event of the thread
    that writes it, and goes to a registered peer that is not that event's
    sender. *)
Theorem interleaved_writes_exclude_sender `{Codec} (s0 : Server.SyncServer)
    (handlers : list (json * conn)) (cfg : Threads.config)
    (i : nat) (c : conn) (raw : string) :
  Threads.reachable (handlers_start s0 handlers) cfg ->
  (i, c, raw) ∈ Threads.sent cfg ->
  exists msg sender,
    handlers !! i = Some (msg, sender) /\
    c <> sender /\
    c ∈ Server.clients s0 /\
    raw = json_dumps msg +:+ String newline "".
Proof.
  intros [schedule Hrun] Hin.
  assert (Hinit : Threads.initial (handlers_start s0 handlers)).
  { split; [reflexivity|]. intros j (r & sd & todo & Hs).
    unfold handlers_start in Hs. simpl in Hs.
    rewrite list_lookup_fmap in Hs.
    destruct (handlers !! j); simpl in Hs; discriminate. }
  destruct (initial_inv _ Hinit) as [Hlock0 Hround0].
  destruct (run_handlers_inv s0 handlers schedule _ cfg Hlock0 Hround0
              (handlers_start_inv s0 handlers) Hrun) as (_ & _ & _ & Hsent).
  destruct (Hsent i c raw Hin) as ([msg sender] & Hh & Hne & Hraw & Hc).
  exists msg, sender. auto.
Qed.

(** The race of the two pauses: thread 1, that handles the pause of
    connection 2, is the one that wrote to connection 1. *)
Lemma interleaved_writes_exclude_sender_witness :
  exists msg sender,
    [(JObj (pause_msg true "A"), 1); (JObj (pause_msg true "B"), 2)] !! 1
      = Some (msg, sender) /\
    1 <> sender /\
    1 ∈ Server.clients demo_relay /\
    "pause" +:+ String newline "" = @json_dumps demo_codec msg +:+ String newline "".
Proof.
  apply (@interleaved_writes_exclude_sender demo_codec demo_relay
           [(JObj (pause_msg true "A"), 1); (JObj (pause_msg true "B"), 2)]
           (default race_start (@Threads.run demo_codec race_schedule race_start))
           1 1 ("pause" +:+ String newline "")).
  - exists race_schedule. vm_compute. reflexivity.
  - apply list_elem_of_In. vm_compute. auto 10.
Defined.

(** ** The file service *)

Lemma uint_value_pos d : forall p,
  uint_value (Z.pos p) d = Z.pos (Pos.of_uint_acc d p).
Proof.
  induction d; intros p; simpl; try reflexivity;
    rewrite <- IHd; f_equal; lia.
Qed.

Lemma uint_value_of_uint d : uint_value 0 d = Z.of_uint d.
Proof.
  unfold Z.of_uint.
  induction d; simpl; try reflexivity; try exact IHd;
    match goal with
    | |- uint_value ?k _ = _ => change k with (Z.pos (Z.to_pos k))
    end; rewrite uint_value_pos; reflexivity.
Qed.

(** The digits [str] wrote are read back by [digits], up to what stops
    the number. *)
Lemma digits_string_of_uint d : forall acc count prev rest,
  ends_number rest = true ->
  d <> Decimal.Nil \/ prev = true ->
  Mkv.digits acc count prev (NilEmpty.string_of_uint d +:+ rest) =
  Some (uint_value acc d, count + Decimal.nb_digits d, rest).
Proof.
  induction d; intros acc count prev rest Hrest Hd; simpl.
  { change ("" +:+ rest) with rest. destruct Hd as [Hd | ->]; [contradiction|].
    rewrite Nat.add_0_r. destruct rest as [|c rest]; [reflexivity|].
    simpl in *. destruct (Mkv.digit_of c); [discriminate|].
    apply negb_true_iff in Hrest. rewrite Hrest. reflexivity. }
  all: rewrite (IHd _ _ true rest Hrest (or_intror eq_refl));
    rewrite Nat.add_succ_r; reflexivity.
Qed.

Lemma string_of_uint_length d :
  String.length (NilEmpty.string_of_uint d) = Decimal.nb_digits d.
Proof. induction d; simpl; congruence. Qed.

Lemma string_of_uint_lacks c d :
  Mkv.digit_of c = None -> lacks c (NilEmpty.string_of_uint d) = true.
Proof.
  intros Hc. induction d; cbn [lacks NilEmpty.string_of_uint];
    try reflexivity; rewrite IHd, andb_true_r;
    apply negb_true_iff, Ascii.eqb_neq; intros <-; discriminate Hc.
Qed.

(** [str] of an int that is not negative: its decimal digits, at least
    one, that stand for it. *)
Lemma py_str_digits z :
  (0 <= z)%Z ->
  exists d, Mkv.py_str z = NilEmpty.string_of_uint d /\
            d <> Decimal.Nil /\ uint_value 0 d = z.
Proof.
  intros Hz. unfold Mkv.py_str. destruct z as [|p|p]; [| |lia].
  - exists (Decimal.D0 Decimal.Nil). repeat split. discriminate.
  - exists (Pos.to_uint p). simpl.
    pose proof (DecimalPos.Unsigned.to_uint_nonnil p) as Hnil.
    split; [destruct (Pos.to_uint p); [contradiction|reflexivity..]|].
    split; [exact Hnil|].
    rewrite uint_value_of_uint. unfold Z.of_uint.
    rewrite DecimalPos.Unsigned.of_to. reflexivity.
Qed.

Lemma digit_not_space c v : Mkv.digit_of c = Some v -> Mkv.is_int_space c = false.
Proof.
  unfold Mkv.digit_of, Mkv.is_int_space.
  destruct (Nat.leb 48 (nat_of_ascii c) && Nat.leb (nat_of_ascii c) 57) eqn:Hn;
    [|discriminate].
  intros _. apply andb_true_iff in Hn as [H1 H2].
  apply Nat.leb_le in H1, H2.
  repeat (apply orb_false_iff; split);
    [apply andb_false_iff; right; apply Nat.leb_gt; lia
    | apply Nat.eqb_neq; lia ..].
Qed.

Lemma digit_not_char c v c' :
  Mkv.digit_of c = Some v -> Mkv.digit_of c' = None -> Ascii.eqb c c' = false.
Proof. intros Hc Hc'. apply Ascii.eqb_neq. intros ->. congruence. Qed.

(** A text that starts with a digit has no white space and no sign for
    [int] to take off. *)
Lemma py_int_digit_first c t v :
  Mkv.digit_of c = Some v ->
  Mkv.py_int (String c t) =
  match Mkv.digits 0 0 false (String c t) with
  | Some (n, count, rest) =>
      if Mkv.all_int_space rest && Nat.leb count Mkv.max_str_digits
      then inr n else inl Mkv.ValueError
  | None => inl Mkv.ValueError
  end.
Proof.
  intros Hc. unfold Mkv.py_int. cbn [Mkv.skip_int_space].
  rewrite (digit_not_space c v Hc),
    (digit_not_char c v "-" Hc eq_refl), (digit_not_char c v "+" Hc eq_refl).
  reflexivity.
Qed.

(** [int] reads back what [str] wrote. *)
Lemma py_int_digits d :
  d <> Decimal.Nil ->
  Decimal.nb_digits d <= Mkv.max_str_digits ->
  Mkv.py_int (NilEmpty.string_of_uint d) = inr (uint_value 0 d).
Proof.
  intros Hd Hlen.
  pose proof (digits_string_of_uint d 0 0 false "" eq_refl (or_introl Hd)) as Hdig.
  rewrite append_nil_r in Hdig.
  assert (Hlimit : Nat.leb (Decimal.nb_digits d) Mkv.max_str_digits = true)
    by (apply Nat.leb_le; exact Hlen).
  assert (Hfirst : exists c t v, NilEmpty.string_of_uint d = String c t /\
                                 Mkv.digit_of c = Some v).
  { destruct d; [contradiction|..]; do 3 eexists; split; reflexivity. }
  destruct Hfirst as (c & t & v & Hs & Hc).
  rewrite Hs in Hdig |- *. rewrite (py_int_digit_first c t v Hc), Hdig.
  simpl Mkv.all_int_space. rewrite Nat.add_0_l, Hlimit. reflexivity.
Qed.

Lemma py_int_py_str z :
  (0 <= z)%Z ->
  String.length (Mkv.py_str z) <= Mkv.max_str_digits ->
  Mkv.py_int (Mkv.py_str z) = inr z.
Proof.
  intros Hz Hlen. destruct (py_str_digits z Hz) as (d & Hs & Hd & Hv).
  rewrite Hs in Hlen |- *. rewrite string_of_uint_length in Hlen.
  rewrite (py_int_digits d Hd Hlen), Hv. reflexivity.
Qed.

Lemma py_str_lacks z c :
  (0 <= z)%Z -> Mkv.digit_of c = None -> lacks c (Mkv.py_str z) = true.
Proof.
  intros Hz Hc. destruct (py_str_digits z Hz) as (d & -> & _ & _).
  apply string_of_uint_lacks. exact Hc.
Qed.

Lemma py_str_not_empty z : (0 <= z)%Z -> String.eqb (Mkv.py_str z) "" = false.
Proof.
  intros Hz. destruct (py_str_digits z Hz) as (d & -> & Hd & _).
  destruct d; [contradiction | reflexivity..].
Qed.

Lemma lacks_app c a b : lacks c (a +:+ b) = lacks c a && lacks c b.
Proof.
  induction a as [|x a IH]; [reflexivity|].
  rewrite append_cons. simpl. rewrite IH, andb_assoc. reflexivity.
Qed.

Lemma prefix_first_differs a p c s :
  a <> c -> String.prefix (String a p) (String c s) = false.
Proof.
  intros Hne. cbn [String.prefix].
  destruct (ascii_dec a c); [contradiction | reflexivity].
Qed.

Lemma remove_lacks s : lacks "b" s = true -> Mkv.remove "bytes=" s = s.
Proof.
  unfold Mkv.remove. induction s as [|c s IH]; [reflexivity|].
  cbn [Mkv.remove_from lacks]. intros Hs. apply andb_true_iff in Hs as [Hc Hs].
  apply negb_true_iff, Ascii.eqb_neq in Hc.
  rewrite prefix_first_differs by congruence.
  rewrite (IH Hs). reflexivity.
Qed.

Lemma split_from_lacks sep s : forall part,
  lacks sep s = true -> Mkv.split_from sep part s = [part +:+ s].
Proof.
  induction s as [|c s IH]; intros part Hs; simpl in *.
  - rewrite append_nil_r. reflexivity.
  - apply andb_true_iff in Hs as [Hc Hs]. apply negb_true_iff in Hc.
    rewrite Hc, (IH _ Hs), append_assoc. reflexivity.
Qed.

Lemma split_from_sep sep s : forall part t,
  lacks sep s = true ->
  Mkv.split_from sep part (s +:+ String sep t) =
  (part +:+ s) :: Mkv.split_from sep "" t.
Proof.
  induction s as [|c s IH]; intros part t Hs.
  - change ("" +:+ String sep t) with (String sep t). simpl.
    rewrite Ascii.eqb_refl, append_nil_r. reflexivity.
  - rewrite append_cons. simpl in *.
    apply andb_true_iff in Hs as [Hc Hs]. apply negb_true_iff in Hc.
    rewrite Hc, (IH _ _ Hs), append_assoc. reflexivity.
Qed.

Lemma remove_bytes_prefix t :
  Mkv.remove "bytes=" ("bytes=" +:+ t) = Mkv.remove "bytes=" t.
Proof. destruct t; reflexivity. Qed.

Lemma byte_range_of_header first rest :
  (0 <= first)%Z ->
  lacks "b" rest = true ->
  Mkv.split "-" (Mkv.remove "bytes=" ("bytes=" +:+ Mkv.py_str first +:+ "-" +:+ rest)) =
  Mkv.py_str first :: Mkv.split "-" rest.
Proof.
  intros Hf Hrest. rewrite remove_bytes_prefix, remove_lacks.
  - unfold Mkv.split. change ("-" +:+ rest) with (String "-" rest).
    rewrite split_from_sep by (apply py_str_lacks; [exact Hf | reflexivity]).
    reflexivity.
  - rewrite lacks_app, (py_str_lacks first "b" Hf eq_refl).
    change ("-" +:+ rest) with (String "-" rest). simpl. exact Hrest.
Qed.

(** X17.  [_parse_range] reads back the two ends of a header
    [bytes=<first>-<last>] written with [str], and accepts them exactly when
    [first <= last < file_size]; an unsatisfiable range is a [ValueError].
    With the last end left out, [bytes=<first>-], the range runs to the last
    byte of the file. *)
Theorem parse_range_of_header (first last file_size : Z) :
  (0 <= first)%Z -> (0 <= last)%Z ->
  String.length (Mkv.py_str first) <= Mkv.max_str_digits ->
  String.length (Mkv.py_str last) <= Mkv.max_str_digits ->
  Mkv._parse_range (range_header first last) file_size =
    (if (first <=? last)%Z && (last <? file_size)%Z
     then inr (first, last) else inl Mkv.ValueError) /\
  Mkv._parse_range ("bytes=" +:+ Mkv.py_str first +:+ "-") file_size =
    (if (first <? file_size)%Z
     then inr (first, file_size - 1)%Z else inl Mkv.ValueError).
Proof.
  intros Hf Hl Hnf Hnl. split.
  - unfold Mkv._parse_range, range_header.
    rewrite (byte_range_of_header first (Mkv.py_str last) Hf
               (py_str_lacks last "b" Hl eq_refl)).
    unfold Mkv.split.
    rewrite (split_from_lacks "-" (Mkv.py_str last) ""
               (py_str_lacks last "-" Hl eq_refl)).
    change ("" +:+ Mkv.py_str last) with (Mkv.py_str last).
    rewrite (py_int_py_str first Hf Hnf), (py_str_not_empty last Hl),
      (py_int_py_str last Hl Hnl).
    assert (H0 : (0 <=? first)%Z = true) by (apply Z.leb_le; exact Hf).
    rewrite H0. reflexivity.
  - unfold Mkv._parse_range.
    rewrite <- (append_nil_r "-") at 1.
    rewrite (byte_range_of_header first "" Hf eq_refl).
    rewrite (py_int_py_str first Hf Hnf). simpl.
    assert (H0 : (0 <=? first)%Z = true) by (apply Z.leb_le; exact Hf).
    rewrite H0. simpl.
    destruct (Z.ltb_spec first file_size) as [Hlt|Hge].
    + assert (H1 : (first <=? file_size - 1)%Z = true) by (apply Z.leb_le; lia).
      assert (H2 : (file_size - 1 <? file_size)%Z = true) by (apply Z.ltb_lt; lia).
      rewrite H1, H2. reflexivity.
    + assert (H1 : (first <=? file_size - 1)%Z = false) by (apply Z.leb_gt; lia).
      rewrite H1. reflexivity.
Qed.

Lemma parse_range_of_header_witness :
  Mkv._parse_range (range_header 2 5) 10 = inr (2, 5)%Z /\
  Mkv._parse_range ("bytes=" +:+ Mkv.py_str 2 +:+ "-") 10 = inr (2, 9)%Z.
Proof.
  apply (parse_range_of_header 2 5 10); vm_compute; try discriminate;
    repeat constructor.
Defined.

(** What [_parse_range] returns lies inside the file. *)
Lemma parse_range_bounds h file_size start end_ :
  Mkv._parse_range h file_size = inr (start, end_) ->
  (0 <= start <= end_)%Z /\ (end_ < file_size)%Z.
Proof.
  unfold Mkv._parse_range.
  destruct (Mkv.split "-" (Mkv.remove "bytes=" h)) as [|first others]; [discriminate|].
  destruct (Mkv.py_int first) as [e|s]; [discriminate|].
  destruct others as [|second others]; [discriminate|].
  destruct (if String.eqb second "" then _ else _) as [e|n]; [discriminate|].
  destruct ((0 <=? s)%Z && (s <=? n)%Z && (n <? file_size)%Z) eqn:Hok; [|discriminate].
  intros [= <- <-].
  apply andb_true_iff in Hok as [Hok H3]. apply andb_true_iff in Hok as [H1 H2].
  apply Z.leb_le in H1, H2. apply Z.ltb_lt in H3. lia.
Qed.

(** X18.  An answer 206 carries exactly the bytes asked for: when
    [serve_video] answers 206 the header was read as a range
    [start..end] inside the file, the body is the [end - start + 1] bytes
    of the file from offset [start] on, and the two headers say so. *)
Theorem partial_content_is_requested_slice (content : list ascii) (h : string)
    (b : Mkv.body) (mimetype : option string) (headers : list (string * string)) :
  Mkv.serve_video (Mkv.Present content) (Some h) = Mkv.Response b 206 mimetype headers ->
  exists (start end_ : Z) (data : list ascii),
    Mkv._parse_range h (Z.of_nat (length content)) = inr (start, end_) /\
    (0 <= start <= end_)%Z /\ (end_ < Z.of_nat (length content))%Z /\
    b = Mkv.Data data /\
    Z.of_nat (length data) = (end_ - start + 1)%Z /\
    (forall i, i < length data -> data !! i = content !! (Z.to_nat start + i)) /\
    headers =
      [("Content-Range",
        "bytes " +:+ Mkv.py_str start +:+ "-" +:+ Mkv.py_str end_ +:+ "/"
          +:+ Mkv.py_str (Z.of_nat (length content)));
       ("Content-Length", Mkv.py_str (end_ - start + 1))].
Proof.
  unfold Mkv.serve_video. destruct (String.eqb h ""); [discriminate|].
  destruct (Mkv._parse_range h (Z.of_nat (length content))) as [e|[start end_]] eqn:Hp.
  - destruct e; discriminate.
  - intros [= <- <- <-].
    destruct (parse_range_bounds _ _ _ _ Hp) as [Hse Hend].
    exists start, end_, (take (Z.to_nat (end_ - start + 1)) (drop (Z.to_nat start) content)).
    split; [reflexivity|]. split; [exact Hse|]. split; [exact Hend|].
    split; [reflexivity|]. split; [|split; [|reflexivity]].
    + rewrite length_take, length_drop. lia.
    + intros i Hi. rewrite length_take, length_drop in Hi.
      rewrite lookup_take_lt by lia. apply lookup_drop.
Qed.

Lemma partial_content_is_requested_slice_witness :
  exists (start end_ : Z) (data : list ascii),
    Mkv._parse_range (range_header 2 5) 10 = inr (start, end_) /\
    (0 <= start <= end_)%Z /\ (end_ < 10)%Z /\
    Mkv.Data (list_ascii_of_string "2345") = Mkv.Data data /\
    Z.of_nat (length data) = (end_ - start + 1)%Z /\
    (forall i, i < length data ->
       data !! i = list_ascii_of_string "0123456789" !! (Z.to_nat start + i)) /\
    [("Content-Range", "bytes 2-5/10"); ("Content-Length", "4")] =
      [("Content-Range",
        "bytes " +:+ Mkv.py_str start +:+ "-" +:+ Mkv.py_str end_ +:+ "/"
          +:+ Mkv.py_str 10);
       ("Content-Length", Mkv.py_str (end_ - start + 1))].
Proof.
  apply (partial_content_is_requested_slice (list_ascii_of_string "0123456789")
           (range_header 2 5) (Mkv.Data (list_ascii_of_string "2345"))
           (Some "video/x-matroska")
           [("Content-Range", "bytes 2-5/10"); ("Content-Length", "4")]).
  vm_compute. reflexivity.
Defined.

(** [int] raises nothing but [ValueError]. *)
Lemma py_int_error s e : Mkv.py_int s = inl e -> e = Mkv.ValueError.
Proof.
  unfold Mkv.py_int.
  destruct (Mkv.digits 0 0 false _) as [[[v count] rest]|]; [|congruence].
  destruct (Mkv.all_int_space rest && Nat.leb count Mkv.max_str_digits); congruence.
Qed.

(** [_parse_range] raises nothing but [ValueError] and [IndexError]. *)
Lemma parse_range_error h file_size e :
  Mkv._parse_range h file_size = inl e -> e = Mkv.ValueError \/ e = Mkv.IndexError.
Proof.
  unfold Mkv._parse_range.
  destruct (Mkv.split "-" (Mkv.remove "bytes=" h)) as [|first others];
    [intros [= <-]; right; reflexivity|].
  destruct (Mkv.py_int first) as [e1|start] eqn:H1.
  { intros [= <-]. left. exact (py_int_error _ _ H1). }
  destruct others as [|second others]; [intros [= <-]; right; reflexivity|].
  destruct (String.eqb second "").
  - destruct (_ && _); [discriminate|]. intros [= <-]. left. reflexivity.
  - destruct (Mkv.py_int second) as [e2|end_] eqn:H2.
    { intros [= <-]. left. exact (py_int_error _ _ H2). }
    destruct (_ && _); [discriminate|]. intros [= <-]. left. reflexivity.
Qed.

(** X19.  A range that gives only a length from the end, [bytes=-N], is
    not understood: whatever follows the hyphen, [_parse_range] raises
    [ValueError] and [serve_video] answers 500 with the error's text. *)
Theorem suffix_range_is_rejected (rest : string) (content : list ascii) :
  Mkv._parse_range ("bytes=-" +:+ rest) (Z.of_nat (length content)) = inl Mkv.ValueError /\
  Mkv.serve_video (Mkv.Present content) (Some ("bytes=-" +:+ rest)) =
    Mkv.Response (Mkv.ErrorText Mkv.ValueError) 500 None [].
Proof.
  assert (Hparse : forall size,
    Mkv._parse_range ("bytes=-" +:+ rest) size = inl Mkv.ValueError).
  { intros size. unfold Mkv._parse_range.
    change ("bytes=-" +:+ rest) with ("bytes=" +:+ String "-" rest).
    rewrite remove_bytes_prefix. unfold Mkv.remove, Mkv.split.
    cbn [Mkv.remove_from]. rewrite prefix_first_differs by discriminate.
    cbn [Mkv.split_from]. rewrite Ascii.eqb_refl. reflexivity. }
  split; [apply Hparse|].
  unfold Mkv.serve_video.
  change (String.eqb ("bytes=-" +:+ rest) "") with false. cbv iota.
  rewrite Hparse. reflexivity.
Qed.

(** X20.  With the file in place, a request that carries a Range header is
    answered 206 with data, or 500 with the text of a [ValueError] or an
    [IndexError] and no headers of its own: never 404, never 416, and never
    the whole file. *)
Theorem range_request_is_206_or_500 (content : list ascii) (h : string) :
  h <> "" ->
  (exists data headers,
     Mkv.serve_video (Mkv.Present content) (Some h) =
       Mkv.Response (Mkv.Data data) 206 (Some "video/x-matroska") headers) \/
  (exists e, (e = Mkv.ValueError \/ e = Mkv.IndexError) /\
     Mkv._parse_range h (Z.of_nat (length content)) = inl e /\
     Mkv.serve_video (Mkv.Present content) (Some h) =
       Mkv.Response (Mkv.ErrorText e) 500 None []).
Proof.
  intros Hh. unfold Mkv.serve_video.
  destruct (String.eqb h "") eqn:He; [apply String.eqb_eq in He; contradiction|].
  destruct (Mkv._parse_range h (Z.of_nat (length content))) as [e|[start end_]] eqn:Hp.
  - right. exists e. destruct (parse_range_error _ _ _ Hp) as [-> | ->];
      (split; [auto|]); split; reflexivity.
  - left. eexists _, _. reflexivity.
Qed.

Lemma range_request_is_206_or_500_witness :
  (exists data headers,
     Mkv.serve_video (Mkv.Present (list_ascii_of_string "0123456789")) (Some "bytes=5") =
       Mkv.Response (Mkv.Data data) 206 (Some "video/x-matroska") headers) \/
  (exists e, (e = Mkv.ValueError \/ e = Mkv.IndexError) /\
     Mkv._parse_range "bytes=5" 10 = inl e /\
     Mkv.serve_video (Mkv.Present (list_ascii_of_string "0123456789")) (Some "bytes=5") =
       Mkv.Response (Mkv.ErrorText e) 500 None []).
Proof.
  apply (range_request_is_206_or_500 (list_ascii_of_string "0123456789") "bytes=5").
  discriminate.
Defined.
